(** * podctl: the pod command client (src/podctl.py)

    A shallow embedding of [podctl.py] and the properties of its state
    type ([PodState]), its session object ([Pod]), its prompt renderer
    ([make_prompt]) and its heartbeat driver ([Heart]).

    Conventions of the embedding.
    - A Python [str] is a [string]; each [ascii] stands for one code point
      below 256 (the model does not cover code points from 256 on).
    - A Python [int] is a [Z].
    - A [datetime] is a [Z], the number of microseconds since the epoch
      (the resolution of [datetime]); a [timedelta] is a [Z] of microseconds.
      [datetime.now()] is an input of the method that reads the clock.
    - A method is a function on the [World] (the [Pod] object, the module
      globals, the open descriptors and the trace of what was written) that
      returns its result or the exception it raises, together with the
      world it leaves behind.
    - What the network does (a write that fails, a connection that is
      refused) is an input of the method that meets it. *)

From Stdlib Require Import ZArith String Ascii List Bool Lia DecimalString.
From Stdlib Require Import DecimalZ.
Import ListNotations.
Open Scope string_scope.
Open Scope Z_scope.

(** ** Python built-ins used by the program *)

Module Py.

Definition code (c : ascii) : Z := Z.of_nat (nat_of_ascii c).
Definition chr (n : nat) : string := String (ascii_of_nat n) EmptyString.

(** [len(s)] *)
Definition len (s : string) : Z := Z.of_nat (String.length s).

(** [s * n]: [n] copies of [s], none when [n <= 0]. *)
Fixpoint repeat_nat (s : string) (n : nat) : string :=
  match n with
  | O => ""
  | S k => s ++ repeat_nat s k
  end.
Definition mul (s : string) (n : Z) : string := repeat_nat s (Z.to_nat n).

(** ["%d" % n] *)
Definition fmt_d (n : Z) : string := NilZero.string_of_int (Z.to_int n).

(** [sub in s]: [sub] occurs in [s] as a substring. *)
Fixpoint contains (sub s : string) : bool :=
  if prefix sub s then true
  else match s with
       | EmptyString => false
       | String _ rest => contains sub rest
       end.

(** [s.split(sep)] for a separator of one character. *)
Fixpoint split (sep : ascii) (s : string) : list string :=
  match s with
  | EmptyString => [EmptyString]
  | String c rest =>
      if Ascii.eqb c sep then EmptyString :: split sep rest
      else match split sep rest with
           | field :: fields => String c field :: fields
           | [] => [String c EmptyString]
           end
  end.

(** [str.isspace] on one character: the white space that [str.strip]
    and [str.rstrip] remove. *)
Definition isspace (c : ascii) : bool :=
  let n := code c in
  ((9 <=? n) && (n <=? 13)) || ((28 <=? n) && (n <=? 32))
  || (n =? 133) || (n =? 160).

(** White space of the C locale ([Py_ISSPACE]), which [int] skips around
    an ASCII literal. *)
Definition isspace_c (c : ascii) : bool :=
  let n := code c in ((9 <=? n) && (n <=? 13)) || (n =? 32).

(** [s.rstrip()] *)
Fixpoint rstrip (s : string) : string :=
  match s with
  | EmptyString => EmptyString
  | String c rest =>
      match rstrip rest with
      | EmptyString => if isspace c then EmptyString else String c EmptyString
      | kept => String c kept
      end
  end.

(** *** [int(s)] on a string, base 10

    With the bound that Python puts on the number of digits since 3.11
    ([sys.get_int_max_str_digits()], 4300 unless configured): a text with
    more digits is refused with [ValueError] like any other text that is
    no number. *)

Definition is_digit (c : ascii) : bool := (48 <=? code c) && (code c <=? 57).
Definition is_underscore (c : ascii) : bool := code c =? 95.

(** A string with a character outside ASCII is first brought to ASCII:
    white space becomes a blank, and the string is cut at the first
    other character from 127 on, where a ["?"] is left (there is no
    decimal digit between 128 and 255). *)
Fixpoint to_ascii_literal (l : list ascii) : list ascii :=
  match l with
  | [] => []
  | c :: rest =>
      if code c <? 127 then c :: to_ascii_literal rest
      else if isspace c then " "%char :: to_ascii_literal rest
      else ["?"%char]
  end.

Definition normalise (l : list ascii) : list ascii :=
  if forallb (fun c => code c <? 128) l then l else to_ascii_literal l.

Fixpoint skip_space (l : list ascii) : list ascii :=
  match l with
  | c :: rest => if isspace_c c then skip_space rest else l
  | [] => []
  end.

(** The longest run of digits and underscores at the head of [l], and
    what follows it. *)
Fixpoint span_digits (l : list ascii) : list ascii * list ascii :=
  match l with
  | c :: rest =>
      if is_digit c || is_underscore c
      then let (run, tl) := span_digits rest in (c :: run, tl)
      else ([], l)
  | [] => ([], [])
  end.

(** A run is a literal when it is not empty, neither starts nor ends with
    an underscore, and has no two underscores in a row. *)
Fixpoint well_grouped (prev_underscore : bool) (run : list ascii) : bool :=
  match run with
  | [] => negb prev_underscore
  | c :: rest =>
      if is_underscore c
      then negb prev_underscore && well_grouped true rest
      else well_grouped false rest
  end.

Definition digits_value (run : list ascii) : Z :=
  fold_left (fun acc c => if is_digit c then 10 * acc + (code c - 48) else acc)
            run 0.

(** The default of [sys.get_int_max_str_digits()]. *)
Definition max_str_digits : Z := 4300.

(** The digits of a run, the underscores between them left out. *)
Definition count_digits (run : list ascii) : Z :=
  Z.of_nat (List.length (filter is_digit run)).

Definition parse_int (l : list ascii) : option Z :=
  let l1 := skip_space (normalise l) in
  let '(negative, l2) :=
    match l1 with
    | "+"%char :: r => (false, r)
    | "-"%char :: r => (true, r)
    | _ => (false, l1)
    end in
  let (run, l3) := span_digits l2 in
  match run with
  | [] => None
  | _ =>
      if well_grouped true run && (count_digits run <=? max_str_digits)
      then match skip_space l3 with
           | [] => Some (if negative then - digits_value run else digits_value run)
           | _ => None
           end
      else None
  end.

Definition int_of_str (s : string) : option Z :=
  parse_int (list_ascii_of_string s).

End Py.

(** ** Exceptions and results *)

Inductive exn : Type :=
| ValueError
| IndexError
| AttributeError (name : string)
| OSError (msg : string).

Inductive Result (A : Type) : Type :=
| Ok (a : A)
| Raise (e : exn).
Arguments Ok {A} a.
Arguments Raise {A} e.

(** A Python value that reaches [int(...)]: a number or a text. *)
Inductive pyval : Type :=
| PyInt (n : Z)
| PyStr (s : string).

(** [int(v)] *)
Definition int (v : pyval) : Result Z :=
  match v with
  | PyInt n => Ok n
  | PyStr s => match Py.int_of_str s with
               | Some n => Ok n
               | None => Raise ValueError
               end
  end.

(** ** [PodStateType] and [PodState] *)

(** The two tables, in the order the dictionaries are written. *)
Definition MAP : list (string * Z) :=
  [ ("POST", 0); ("BOOT", 1); ("LPFILL", 2); ("HPFILL", 3); ("LOAD", 4);
    ("STANDBY", 5); ("ARMED", 6); ("PUSHING", 7); ("COASTING", 8);
    ("BRAKING", 9); ("VENT", 10); ("RETRIEVAL", 11); ("EMERGENCY", 12);
    ("SHUTDOWN", 13) ].

Definition SHORT_MAP : list (string * Z) :=
  [ ("POST", 0); ("BOOT", 1); ("LPFL", 2); ("HPFL", 3); ("LOAD", 4);
    ("STBY", 5); ("ARMD", 6); ("PUSH", 7); ("COAS", 8); ("BRKE", 9);
    ("VENT", 10); ("RETR", 11); ("EMRG", 12); ("SDWN", 13) ].

(** [table[name]] when [name in table] *)
Fixpoint lookup (table : list (string * Z)) (name : string) : option Z :=
  match table with
  | [] => None
  | (key, val) :: rest => if String.eqb key name then Some val else lookup rest name
  end.

(** [PodStateType.__getattr__(cls, name)]: what Python calls for
    [PodState.name] when the ordinary lookup finds no attribute of that
    name, as for [PodState.ARMED] and the like. *)
Definition getattr (name : string) : Result Z :=
  match lookup MAP name with
  | Some ordinal => Ok ordinal
  | None => Raise (AttributeError name)
  end.

Record PodState : Type := mkPodState { _state : Z }.

(** [PodState.__init__]: [self._state = int(state)]. *)
Definition PodState_init (state : pyval) : Result PodState :=
  match int state with
  | Ok n => Ok (mkPodState n)
  | Raise e => Raise e
  end.

(** The ordinal behind a name of [MAP], as [PodState.EMERGENCY] reads it. *)
Definition ordinal_of (name : string) : Z :=
  match lookup MAP name with Some n => n | None => -1 end.

Definition is_fault (s : PodState) : bool := _state s =? ordinal_of "EMERGENCY".

Definition is_moving (s : PodState) : bool :=
  existsb (Z.eqb (_state s))
          [ordinal_of "BRAKING"; ordinal_of "COASTING"; ordinal_of "PUSHING"].

(** [[key for key, val in table.items() if val == self._state]] *)
Definition keys_of (table : list (string * Z)) (n : Z) : list string :=
  map fst (filter (fun kv => snd kv =? n) table).

(** [PodState.__str__] *)
Definition str (s : PodState) : string :=
  match keys_of MAP (_state s) with
  | [] => "UNKNOWN"
  | key :: _ => key
  end.

(** [PodState.short] *)
Definition short (s : PodState) : string :=
  match keys_of SHORT_MAP (_state s) with
  | [] => "----"
  | key :: _ => key
  end.

(** ** The [ansi] module *)

(** [from ansi import Ansi]: the module is imported by [podctl.py] and is
    not part of the sources at hand, so the program is modelled over any
    implementation of the five functions it calls. *)
Class Ansi : Type := {
  make_bold : string -> string;
  make_red : string -> string;
  make_green : string -> string;
  make_yellow : string -> string;
  strip : string -> string
}.

(** An implementation to run the program on: the text is wrapped in the
    usual SGR escape sequences ([ESC[1m] for bold, [ESC[31m], [ESC[32m],
    [ESC[33m] for the colours, [ESC[0m] to end), and [strip] removes every
    sequence from [ESC] to the next [m]. *)
Module Sgr.

Definition ESC : string := Py.chr 27.
Definition wrap (sgr text : string) : string :=
  ESC ++ "[" ++ sgr ++ "m" ++ text ++ ESC ++ "[0m".

Fixpoint strip_from (in_sequence : bool) (s : string) : string :=
  match s with
  | EmptyString => EmptyString
  | String c rest =>
      if in_sequence
      then strip_from (negb (Ascii.eqb c "m")) rest
      else if Ascii.eqb c (ascii_of_nat 27) then strip_from true rest
           else String c (strip_from false rest)
  end.

(** Modelled from the spec: [ansi.Ansi], which is not part of the sources
    at hand and which the spec describes as the pure functions
    [highlight(text, semanticColor) -> text] and
    [stripFormatting(text) -> text]. *)
Definition ansi : Ansi := {|
  make_bold := wrap "1";
  make_red := wrap "31";
  make_green := wrap "32";
  make_yellow := wrap "33";
  strip := strip_from false
|}.

End Sgr.

(** ** The world of the program *)

(** A socket object: [fileno()] is the descriptor while it is open and
    [-1] once it is closed. *)
Record socket : Type := mkSocket { fileno : Z }.

(** The fields of a [Pod]. *)
Record Pod : Type := mkPod {
  sock : option socket;
  addr : string * Z;
  last_ping : Z;
  recieved : Z;
  state : option PodState
}.

(** What the program does to the outside, in order. *)
Inductive event : Type :=
| Stdout (text : string)              (* sys.stdout.write, print *)
| SockSend (fd : Z) (data : string)   (* sock.send *)
| SockClose (fd : Z)                  (* sock.close *)
| LogError (e : exn).                 (* logging.error *)

(** The one [Pod] of the process, the two module globals, the socket
    descriptors the process holds open, and the events so far. *)
Record World : Type := mkWorld {
  pod : Pod;
  PROMPT_TRACK : Z;
  LAST_PROMPT : string;
  open_fds : list Z;
  trace : list event
}.

Definition MAX_MESSAGE_SIZE : Z := 2048.
(** [timedelta(seconds=1)] *)
Definition PING_TIMEOUT : Z := 1000000.

(** *** Statements that may raise *)

Definition M (A : Type) : Type := World -> Result A * World.

Definition ret {A} (a : A) : M A := fun w => (Ok a, w).
Definition raise {A} (e : exn) : M A := fun w => (Raise e, w).
Definition bind {A B} (m : M A) (k : A -> M B) : M B :=
  fun w => match m w with
           | (Ok a, w') => k a w'
           | (Raise e, w') => (Raise e, w')
           end.
(** [try: body  except Exception as e: handler(e)] *)
Definition try_except {A} (body : M A) (handler : exn -> M A) : M A :=
  fun w => match body w with
           | (Ok a, w') => (Ok a, w')
           | (Raise e, w') => handler e w'
           end.
Definition lift {A} (r : Result A) : M A := fun w => (r, w).
Definition get : M World := fun w => (Ok w, w).
Definition modify (f : World -> World) : M unit := fun w => (Ok tt, f w).

Declare Scope py_scope.
Delimit Scope py_scope with py.
Notation "x <- m ;; k" := (bind m (fun x => k))
  (at level 100, m at next level, right associativity) : py_scope.
Notation "m ;; k" := (bind m (fun _ => k))
  (at level 100, right associativity) : py_scope.
Open Scope py_scope.

(** *** Assignments *)

Definition with_pod (f : Pod -> Pod) (w : World) : World :=
  mkWorld (f (pod w)) (PROMPT_TRACK w) (LAST_PROMPT w) (open_fds w) (trace w).
Definition set_sock (s : option socket) : M unit :=
  modify (with_pod (fun p => mkPod s (addr p) (last_ping p) (recieved p) (state p))).
Definition set_last_ping (t : Z) : M unit :=
  modify (with_pod (fun p => mkPod (sock p) (addr p) t (recieved p) (state p))).
Definition set_recieved (n : Z) : M unit :=
  modify (with_pod (fun p => mkPod (sock p) (addr p) (last_ping p) n (state p))).
Definition set_state (s : option PodState) : M unit :=
  modify (with_pod (fun p => mkPod (sock p) (addr p) (last_ping p) (recieved p) s)).
Definition set_PROMPT_TRACK (n : Z) : M unit :=
  modify (fun w => mkWorld (pod w) n (LAST_PROMPT w) (open_fds w) (trace w)).
Definition set_LAST_PROMPT (s : string) : M unit :=
  modify (fun w => mkWorld (pod w) (PROMPT_TRACK w) s (open_fds w) (trace w)).
Definition set_open_fds (l : list Z) : M unit :=
  modify (fun w => mkWorld (pod w) (PROMPT_TRACK w) (LAST_PROMPT w) l (trace w)).
Definition emit (e : event) : M unit :=
  modify (fun w => mkWorld (pod w) (PROMPT_TRACK w) (LAST_PROMPT w) (open_fds w)
                           (trace w ++ [e])).

(** *** The library calls *)

Definition stdout_write (text : string) : M unit := emit (Stdout text).
(** [print(text)] *)
Definition print (text : string) : M unit := emit (Stdout (text ++ Py.chr 10)).
Definition logging_error (e : exn) : M unit := emit (LogError e).

(** [sock.send(data.encode('utf-8'))]: the write goes out, or the call
    raises [failure]. *)
Definition socket_send (failure : option exn) (s : socket) (data : string) : M unit :=
  match failure with
  | None => emit (SockSend (fileno s) data)
  | Some e => raise e
  end.

(** [sock.close()]: the descriptor is given back. *)
Definition socket_close (s : socket) : M unit :=
  w <- get ;;
  set_open_fds (remove Z.eq_dec (fileno s) (open_fds w)) ;;
  emit (SockClose (fileno s)).

(** What the network answers to one [connect()]: [create_connection]
    returns a socket on a descriptor or raises, and each of the two
    [setsockopt] calls may raise. *)
Record connect_env : Type := mkConnectEnv {
  connection : Result nat;
  reuseaddr_failure : option exn;
  reuseport_failure : option exn
}.

(** [socket.create_connection(self.addr, 1)] *)
Definition create_connection (env : connect_env) : M socket :=
  match connection env with
  | Ok fd =>
      w <- get ;;
      set_open_fds (Z.of_nat fd :: open_fds w) ;;
      ret (mkSocket (Z.of_nat fd))
  | Raise e => raise e
  end.

(** [sock.setsockopt(...)] *)
Definition setsockopt (failure : option exn) : M unit :=
  match failure with
  | None => ret tt
  | Some e => raise e
  end.

(** The first exception the network calls of one [connect()] raise, in
    the order [connect] makes them, if any does. *)
Definition first_failure (env : connect_env) : option exn :=
  match connection env with
  | Raise e => Some e
  | Ok _ =>
      match reuseaddr_failure env with
      | Some e => Some e
      | None => reuseport_failure env
      end
  end.

(** [l[i]] *)
Definition index {A} (l : list A) (i : nat) : M A :=
  match nth_error l i with
  | Some a => ret a
  | None => raise IndexError
  end.

(** ** The program *)

Definition user_write (txt : string) : M unit := stdout_write txt.

(** [progress()] *)
Definition progress : M string :=
  w <- get ;;
  set_PROMPT_TRACK ((PROMPT_TRACK w + 1) mod 5) ;;
  w <- get ;;
  ret (Py.mul "." (PROMPT_TRACK w) ++ Py.mul " " (4 - PROMPT_TRACK w)).

(** [Pod.__init__], at the time [now]. *)
Definition Pod_init (address : string * Z) (now : Z) : Pod :=
  mkPod None address now 0 None.

Definition is_connected_pod (p : Pod) : bool :=
  match sock p with
  | None => false
  | Some s => 0 <=? fileno s
  end.

(** [Pod.is_connected] *)
Definition is_connected : M bool :=
  w <- get ;; ret (is_connected_pod (pod w)).

(** [Pod.close] *)
Definition close : M unit :=
  w <- get ;;
  match sock (pod w) with
  | Some s => socket_close s ;; set_sock None
  | None => ret tt
  end.

(** [Pod.send]; [failure] is what [sock.send] raises, if it does. *)
Definition send (failure : option exn) (data : string) : M unit :=
  connected <- is_connected ;;
  if negb connected then ret tt
  else
    try_except
      (w <- get ;;
       match sock (pod w) with
       | Some s => socket_send failure s data
       | None => ret tt
       end)
      (fun e => logging_error e ;; close).

(** [Pod.command] *)
Definition command (failure : option exn) (cmd : string) : M unit :=
  send failure (cmd ++ Py.chr 10).

(** [Pod.recv]; [outcome] is what [sock.recv(MAX_MESSAGE_SIZE).decode('utf-8')]
    gives: the text read, or the exception raised.  The result is the text,
    or nothing ([None]). *)
Definition recv (outcome : Result string) : M (option string) :=
  connected <- is_connected ;;
  if negb connected then ret None
  else
    try_except
      (text <- lift outcome ;; ret (Some text))
      (fun e => logging_error e ;; close ;; ret None).

Section Program.

Context {A : Ansi}.

(** [make_prompt(pod, extra)] *)
Definition make_prompt (extra : string) : M string :=
  w <- get ;;
  let details := fst (addr (pod w)) ++ ":" ++ Py.fmt_d (snd (addr (pod w))) in
  details <-
    match state (pod w) with
    | Some st =>
        let details := details ++ " " ++ short st in
        if is_fault st then ret (make_red details)
        else ret (make_green details)
    | None =>
        walker <- progress ;;
        ret (make_yellow (details ++ " " ++ walker))
    end ;;
  let text := make_bold ("Pod(" ++ details ++ ")" ++ extra) in
  let raw := strip text in
  w <- get ;;
  let text :=
    if Py.len (strip (LAST_PROMPT w)) >? Py.len raw
    then text ++ Py.mul " " (Py.len (LAST_PROMPT w) - Py.len raw)
    else text in
  set_LAST_PROMPT (Py.rstrip text) ;;
  ret text.

(** The last step of [make_prompt] on its own: what is returned for the
    line [line] when [LAST_PROMPT] is [last]. *)
Definition padded (last line : string) : string :=
  if Py.len (strip last) >? Py.len (strip line)
  then line ++ Py.mul " " (Py.len last - Py.len (strip line))
  else line.

(** [Pod.ping], at the time [now]; [failure] is what the write of the
    probe raises, if it does. *)
Definition ping (failure : option exn) (now : Z) : M unit :=
  send failure "ping" ;;
  w <- get ;;
  let timed_out := now - last_ping (pod w) >? PING_TIMEOUT in
  connected <- is_connected ;;
  if connected && timed_out && (recieved (pod w) >? 0)
  then print (make_bold (make_red "PING TIMEOUT!")) ;; close
  else ret tt.

(** [Pod.handle_data], at the time [now]. *)
Definition handle_data (now : Z) (data : string) : M bool :=
  (if Py.contains "PONG" data
   then
     set_last_ping now ;;
     w <- get ;;
     set_recieved (recieved (pod w) + 1) ;;
     token <- index (Py.split ":" data) 1 ;;
     st <- lift (PodState_init (PyStr token)) ;;
     w <- get ;;
     (if match state (pod w) with
         | None => true
         | Some known => negb (_state st =? _state known)
         end
      then
        stdout_write (Py.chr 13) ;;
        set_state (Some st) ;;
        prompt <- make_prompt "> " ;;
        user_write prompt
      else ret tt) ;;
     set_state (Some st)
   else
     stdout_write data) ;;
  ret (negb (Py.contains "PONG" data)).

End Program.

(** [Pod.connect], at the time [now]. *)
Definition connect (env : connect_env) (now : Z) : M unit :=
  try_except
    (s <- create_connection env ;;
     set_sock (Some s) ;;
     setsockopt (reuseaddr_failure env) ;;
     setsockopt (reuseport_failure env) ;;
     set_recieved 0 ;;
     set_last_ping now)
    (fun e => close ;; raise e).

(** ** [loop] *)

Section SessionLoop.

Context {A : Ansi}.

(** [str(e)], the text of an exception as ["%s" % e] prints it. *)
Variable exn_str : exn -> string.

(** One turn of the first [while] of [loop]: what the network answers to
    the [connect()] of the turn, and the time of that call. *)
Record attempt : Type := mkAttempt { network : connect_env; clock : Z }.

(** [while not pod.is_connected():] with its [try: pod.connect()] and the
    prompt drawn on an exception.  The attempts are the turns the loop is
    given; the result is [true] when the loop is left, connected, and
    [false] when the attempts are used up and the loop would go on.  The
    [logging.debug] lines and [time.sleep(1)] leave no trace. *)
Fixpoint connecting (attempts : list attempt) : M bool :=
  connected <- is_connected ;;
  if connected then ret true
  else
    match attempts with
    | [] => ret false
    | a :: rest =>
        try_except
          (connect (network a) (clock a))
          (fun e =>
             user_write (Py.chr 13) ;;
             prompt <- make_prompt (" ! " ++ exn_str e ++ " ") ;;
             user_write prompt) ;;
        connecting rest
    end.

(** What [input()] gives when [sys.stdin] is ready. *)
Inductive typed : Type :=
| Line (cmd : string)
| EOF.

(** One turn of the second [while] of [loop]: whether [pod.sock] is in
    [ready], and then what the read gives; whether [sys.stdin] is in
    [ready], and then what [input()] gives; what the write of the command
    raises, if it does; the time. *)
Record turn : Type := mkTurn {
  from_socket : option (Result string);
  from_stdin : option typed;
  write_failure : option exn;
  at_time : Z
}.

(** How [loop] ends: it returns because the session is no longer
    connected, or [sys.exit(code)] is called, or the turns it was given
    are used up and it would go on. *)
Inductive loop_end : Type :=
| Disconnected
| Exit (code : Z)
| StillLooping.

(** [while pod.is_connected():] with its body. *)
Fixpoint serving (turns : list turn) : M loop_end :=
  connected <- is_connected ;;
  if negb connected then ret Disconnected
  else
    match turns with
    | [] => ret StillLooping
    | t :: rest =>
        match from_socket t with
        | Some outcome =>
            data <- recv outcome ;;
            match data with
            | Some (String c text) =>
                redraw <- handle_data (at_time t) (String c text) ;;
                if redraw
                then prompt <- make_prompt "> " ;; user_write prompt
                else ret tt
            | _ => ret tt
            end
        | None => ret tt
        end ;;
        match from_stdin t with
        | Some EOF => ret (Exit 0)
        | Some (Line cmd) => command (write_failure t) cmd ;; serving rest
        | None => serving rest
        end
    end.


End SessionLoop.

(** The exceptions the first loop meets: what each [connect()] raises,
    up to the first one that raises nothing. *)
Fixpoint refusals (attempts : list attempt) : list exn :=
  match attempts with
  | [] => []
  | a :: rest =>
      match first_failure (network a) with
      | Some e => e :: refusals rest
      | None => []
      end
  end.

(** ** [Heart] *)

Module Beat.
Section Driver.

(** The callback works on some shared state [St]: it leaves a state
    behind and returns, or raises.  In the program it is [Pod.ping],
    which ignores the heart it is handed. *)
Variable St : Type.
Variable callback : St -> St * option exn.

(** The fields of a [Heart]; [interval] in microseconds. *)
Record Heart : Type := mkHeart { interval : Z; running : bool }.

(** Where the thread that runs [start()] stands. *)
Inductive position : Type :=
| AtStart          (* about to run [self.running = True] *)
| AtCheck          (* about to evaluate [while self.running] *)
| AtCall           (* saw the flag set, about to call the callback *)
| InCall           (* the callback is running *)
| AtSleep          (* the callback returned, about to sleep *)
| Returned         (* [start()] has returned *)
| Raised (e : exn). (* [start()] has raised [e] *)

Record thread : Type := mkThread {
  heart : Heart;
  at_ : position;
  shared : St;
  invoked : nat;        (* calls of the callback begun *)
  completed : nat;      (* calls of the callback returned *)
  slept : list Z        (* the arguments of [time.sleep], in order *)
}.


(** [Heart.stop], called from any thread. *)
Definition stop (t : thread) : thread :=
  mkThread (mkHeart (interval (heart t)) false)
           (at_ t) (shared t) (invoked t) (completed t) (slept t).

(** The next statement of [Heart.start]:
    [self.running = True], then [while self.running:] with the body
    [self.callback(self)], [time.sleep(self.interval)].  An exception of
    the callback leaves [start()], and so does the [ValueError] that
    [time.sleep] raises for a negative length. *)
Definition tick (t : thread) : thread :=
  match at_ t with
  | AtStart =>
      mkThread (mkHeart (interval (heart t)) true)
               AtCheck (shared t) (invoked t) (completed t) (slept t)
  | AtCheck =>
      mkThread (heart t) (if running (heart t) then AtCall else Returned)
               (shared t) (invoked t) (completed t) (slept t)
  | AtCall =>
      mkThread (heart t) InCall (shared t) (S (invoked t)) (completed t) (slept t)
  | InCall =>
      match callback (shared t) with
      | (s, None) =>
          mkThread (heart t) AtSleep s (invoked t) (S (completed t)) (slept t)
      | (s, Some e) =>
          mkThread (heart t) (Raised e) s (invoked t) (completed t) (slept t)
      end
  | AtSleep =>
      if interval (heart t) <? 0
      then mkThread (heart t) (Raised ValueError) (shared t) (invoked t)
                    (completed t) (slept t)
      else mkThread (heart t) AtCheck (shared t) (invoked t) (completed t)
                    (slept t ++ [interval (heart t)])
  | Returned => t
  | Raised _ => t
  end.

(** One step of the process: the heart thread moves on, or another
    thread calls [stop()]. *)
Inductive action : Type := Tick | Stop.

Definition step (a : action) (t : thread) : thread :=
  match a with
  | Tick => tick t
  | Stop => stop t
  end.

Fixpoint run (schedule : list action) (t : thread) : thread :=
  match schedule with
  | [] => t
  | a :: rest => run rest (step a t)
  end.





(** What one call of the callback does to the shared state. *)
Definition effect (s : St) : St := fst (callback s).

End Driver.

Arguments mkThread {St} heart at_ shared invoked completed slept.
Arguments heart {St} t.
Arguments at_ {St} t.
Arguments shared {St} t.
Arguments invoked {St} t.
Arguments completed {St} t.
Arguments slept {St} t.
Arguments stop {St} t.
Arguments tick {St} callback t.
Arguments step {St} callback a t.
Arguments run {St} callback schedule t.
Arguments effect {St} callback s.

End Beat.

(** ** Worlds to run the program on *)

(** The process right after [Pod(("127.0.0.1", 7779))] at time 0: the
    defaults of [main]. *)
Definition initial_world : World :=
  mkWorld (Pod_init ("127.0.0.1", 7779) 0) 0 "" [] [].

(** The same once connected on descriptor 3, before any reply. *)
Definition connected_world : World :=
  mkWorld (mkPod (Some (mkSocket 3)) ("127.0.0.1", 7779) 0 0 None) 0 "" [3] [].

(** A pod at [("", 1)] whose state is known to be ARMED. *)
Definition armed_world : World :=
  mkWorld (mkPod None ("", 1) 0 0 (Some (mkPodState 6))) 0 "" [] [].




(** * Properties *)

(** ** The built-ins *)


Lemma contains_step (sub s : string) :
  Py.contains sub s =
  prefix sub s || match s with
                  | EmptyString => false
                  | String _ rest => Py.contains sub rest
                  end.
Proof. destruct s; unfold Py.contains; fold Py.contains; now destruct (prefix sub _). Qed.


Lemma split_nonempty (sep : ascii) (s : string) : Py.split sep s <> [].
Proof.
  destruct s as [|c s]; simpl; [discriminate|].
  destruct (Ascii.eqb c sep); [discriminate|].
  destruct (Py.split sep s); discriminate.
Qed.

Lemma contains_char_cons (sep c : ascii) (s : string) :
  Py.contains (String sep EmptyString) (String c s) =
  Ascii.eqb c sep || Py.contains (String sep EmptyString) s.
Proof.
  rewrite contains_step. f_equal. simpl.
  destruct (ascii_dec sep c) as [E|E].
  - subst. rewrite Ascii.eqb_refl. now destruct s.
  - symmetry. apply Ascii.eqb_neq. congruence.
Qed.

Lemma split_cons (sep c : ascii) (s : string) :
  Py.split sep (String c s) =
  if Ascii.eqb c sep then EmptyString :: Py.split sep s
  else match Py.split sep s with
       | field :: fields => String c field :: fields
       | [] => [String c EmptyString]
       end.
Proof. reflexivity. Qed.

(** [s.split(sep)] has a second field exactly when [sep] occurs in [s]. *)
Lemma split_second_none (sep : ascii) (s : string) :
  nth_error (Py.split sep s) 1 = None <->
  Py.contains (String sep EmptyString) s = false.
Proof.
  induction s as [|c s IH].
  - split; reflexivity.
  - rewrite contains_char_cons, split_cons.
    destruct (Ascii.eqb c sep); simpl.
    + destruct (Py.split sep s) eqn:E; [now apply split_nonempty in E|].
      split; discriminate.
    + destruct (Py.split sep s) eqn:E; [now apply split_nonempty in E|].
      simpl in *. exact IH.
Qed.

(** The second field is the text between the first and the second
    separator, or the end. *)
Lemma split_second_field (sep : ascii) (pre tok rest : string) :
  Py.contains (String sep EmptyString) pre = false ->
  Py.contains (String sep EmptyString) tok = false ->
  nth_error (Py.split sep (pre ++ String sep tok)) 1 = Some tok /\
  nth_error (Py.split sep (pre ++ String sep (tok ++ String sep rest))) 1 = Some tok.
Proof.
  intros Hpre Htok.
  assert (Hhead : forall more,
             hd_error (Py.split sep (tok ++ String sep more)) = Some tok).
  { intros more. clear Hpre. induction tok as [|c tok IH].
    - simpl. now rewrite Ascii.eqb_refl.
    - rewrite contains_char_cons in Htok. apply orb_false_iff in Htok as [Hc Htok].
      simpl append. rewrite split_cons, Hc.
      specialize (IH Htok).
      destruct (Py.split sep (tok ++ String sep more)); [discriminate|].
      simpl in *. congruence. }
  assert (Hlast : hd_error (Py.split sep tok) = Some tok).
  { clear Hpre Hhead. induction tok as [|c tok IH]; [reflexivity|].
    rewrite contains_char_cons in Htok. apply orb_false_iff in Htok as [Hc Htok].
    rewrite split_cons, Hc.
    specialize (IH Htok).
    destruct (Py.split sep tok); [discriminate|].
    simpl in *. congruence. }
  assert (Hskip : forall s,
             nth_error (Py.split sep (pre ++ String sep s)) 1
             = hd_error (Py.split sep s)).
  { intros s. clear Htok Hhead Hlast. induction pre as [|c pre IH].
    - simpl append. rewrite split_cons, Ascii.eqb_refl. simpl.
      now destruct (Py.split sep s).
    - rewrite contains_char_cons in Hpre. apply orb_false_iff in Hpre as [Hc Hpre].
      simpl append. rewrite split_cons, Hc.
      specialize (IH Hpre).
      destruct (Py.split sep (pre ++ String sep s)) eqn:E;
        [now apply split_nonempty in E|].
      simpl in *. exact IH. }
  split; rewrite Hskip; [exact Hlast | apply Hhead].
Qed.

(** ** [PodState] *)

Lemma PodState_init_int (n : Z) : PodState_init (PyInt n) = Ok (mkPodState n).
Proof. reflexivity. Qed.

Lemma PodState_init_str (s : string) :
  PodState_init (PyStr s) =
  match Py.int_of_str s with
  | Some n => Ok (mkPodState n)
  | None => Raise ValueError
  end.
Proof. unfold PodState_init, int. now destruct (Py.int_of_str s). Qed.

Lemma keys_of_outside (table : list (string * Z)) (n : Z) :
  Forall (fun kv => 0 <= snd kv <= 13) table ->
  n < 0 \/ 13 < n -> keys_of table n = [].
Proof.
  intros Hall Hn. unfold keys_of.
  induction Hall as [|kv rest Hkv _ IH]; [reflexivity|].
  cbn [filter]. destruct (Z.eqb_spec (snd kv) n); [lia | exact IH].
Qed.

Lemma ordinals_in_range :
  Forall (fun kv => 0 <= snd kv <= 13) MAP /\
  Forall (fun kv => 0 <= snd kv <= 13) SHORT_MAP.
Proof. split; repeat constructor; cbn [snd]; lia. Qed.

Lemma unknown_ordinal (n : Z) :
  n < 0 \/ 13 < n -> keys_of MAP n = [] /\ keys_of SHORT_MAP n = [].
Proof.
  intros Hn. destruct ordinals_in_range as [Hm Hs].
  split; apply keys_of_outside; assumption.
Qed.

(** C3, as the code has it.  For each of the 14 names of [MAP], with the
    ordinal the table gives it: [PodState.<name>] is that ordinal, a
    [PodState] built from the ordinal (or from its decimal text) prints as
    the name, its short form is a key of [SHORT_MAP] for the same ordinal,
    4 characters long, and building a [PodState] from the name itself
    raises [ValueError].  A [PodState] built from an integer outside
    0..13 prints as "UNKNOWN" and has the short form "----".  Building
    from an integer always succeeds; building from a text gives the state
    of [n] exactly when [int] reads the text as [n], and raises
    [ValueError], and nothing else, exactly when [int] refuses the
    text. *)
Theorem PodState_round_trip :
  List.length MAP = 14%nat /\
  (forall name ordinal, In (name, ordinal) MAP ->
     getattr name = Ok ordinal /\
     PodState_init (PyInt ordinal) = Ok (mkPodState ordinal) /\
     PodState_init (PyStr (Py.fmt_d ordinal)) = Ok (mkPodState ordinal) /\
     str (mkPodState ordinal) = name /\
     lookup SHORT_MAP (short (mkPodState ordinal)) = Some ordinal /\
     String.length (short (mkPodState ordinal)) = 4%nat /\
     PodState_init (PyStr name) = Raise ValueError) /\
  (forall n, n < 0 \/ 13 < n ->
     PodState_init (PyInt n) = Ok (mkPodState n) /\
     str (mkPodState n) = "UNKNOWN" /\
     short (mkPodState n) = "----") /\
  (forall n, PodState_init (PyInt n) = Ok (mkPodState n)) /\
  (forall s n, PodState_init (PyStr s) = Ok (mkPodState n) <->
               Py.int_of_str s = Some n) /\
  (forall s, PodState_init (PyStr s) = Raise ValueError <->
             Py.int_of_str s = None) /\
  (forall s e, PodState_init (PyStr s) = Raise e -> e = ValueError).
Proof.
  split; [reflexivity|].
  refine (conj _ (conj _ (conj _ (conj _ (conj _ _))))).
  - intros name ordinal H. unfold MAP in H. simpl in H.
    repeat (destruct H as [H|H];
            [inversion H; subst; vm_compute; repeat split|]).
    contradiction.
  - intros n Hn. destruct (unknown_ordinal n Hn) as [Hm Hs].
    unfold str, short. simpl _state. rewrite Hm, Hs. repeat split.
  - reflexivity.
  - intros s n. rewrite PodState_init_str.
    destruct (Py.int_of_str s); split; congruence.
  - intros s. rewrite PodState_init_str.
    destruct (Py.int_of_str s); split; congruence.
  - intros s e. rewrite PodState_init_str.
    destruct (Py.int_of_str s); congruence.
Qed.

(** C3 as the spec words it fails: a [PodState] cannot be built from a
    name, [PodState("ARMED")] raises [ValueError], and so does building
    from each of the other names of [MAP]. *)
Lemma PodState_of_name_raises :
  In ("ARMED", 6) MAP /\
  PodState_init (PyStr "ARMED") = Raise ValueError /\
  ~ (exists st, PodState_init (PyStr "ARMED") = Ok st /\ str st = "ARMED") /\
  Forall (fun entry => PodState_init (PyStr (fst entry)) = Raise ValueError) MAP.
Proof.
  split; [simpl; tauto|]. split; [reflexivity|]. split.
  - intros [st [H _]]. vm_compute in H. discriminate.
  - unfold MAP. repeat (constructor; [vm_compute; reflexivity|]). constructor.
Qed.

(** ** [Pod.close], [Pod.send], [Pod.connect] *)

Ltac run_py :=
  unfold user_write;
  unfold stdout_write, print, logging_error, set_sock, set_last_ping,
    set_recieved, set_state, set_open_fds, set_LAST_PROMPT, set_PROMPT_TRACK;
  unfold emit;
  unfold bind, try_except, ret, raise, lift, get, modify, with_pod;
  cbn [fst snd pod sock addr last_ping recieved state PROMPT_TRACK LAST_PROMPT
       open_fds trace].

Lemma close_run (w : World) :
  close w =
  match sock (pod w) with
  | Some s =>
      (Ok tt,
       mkWorld (mkPod None (addr (pod w)) (last_ping (pod w)) (recieved (pod w))
                      (state (pod w)))
               (PROMPT_TRACK w) (LAST_PROMPT w)
               (remove Z.eq_dec (fileno s) (open_fds w))
               (trace w ++ [SockClose (fileno s)]))
  | None => (Ok tt, w)
  end.
Proof.
  unfold close, socket_close, is_connected. run_py.
  destruct (sock (pod w)); reflexivity.
Qed.

Lemma is_connected_run (w : World) :
  is_connected w = (Ok (is_connected_pod (pod w)), w).
Proof. reflexivity. Qed.

Lemma send_run (failure : option exn) (data : string) (w : World) :
  send failure data w =
  if is_connected_pod (pod w)
  then match sock (pod w), failure with
       | Some s, None =>
           (Ok tt,
            mkWorld (pod w) (PROMPT_TRACK w) (LAST_PROMPT w) (open_fds w)
                    (trace w ++ [SockSend (fileno s) data]))
       | Some s, Some e =>
           (Ok tt,
            mkWorld (mkPod None (addr (pod w)) (last_ping (pod w))
                           (recieved (pod w)) (state (pod w)))
                    (PROMPT_TRACK w) (LAST_PROMPT w)
                    (remove Z.eq_dec (fileno s) (open_fds w))
                    ((trace w ++ [LogError e]) ++ [SockClose (fileno s)]))
       | None, _ => (Ok tt, w)
       end
  else (Ok tt, w).
Proof.
  unfold send. unfold bind at 1. rewrite is_connected_run.
  unfold is_connected_pod.
  destruct (sock (pod w)) as [s|] eqn:Hs; cbn [negb]; [|reflexivity].
  destruct (0 <=? fileno s); cbn [negb]; [|reflexivity].
  unfold try_except. unfold bind at 1. unfold get at 1. rewrite Hs.
  destruct failure as [e|]; unfold socket_send.
  - unfold raise. unfold bind at 1. unfold logging_error, emit, modify.
    rewrite close_run. cbn [pod sock]. rewrite Hs. reflexivity.
  - reflexivity.
Qed.

Lemma send_returns (failure : option exn) (data : string) (w : World) :
  fst (send failure data w) = Ok tt.
Proof.
  rewrite send_run.
  destruct (is_connected_pod (pod w)); [|reflexivity].
  destruct (sock (pod w)); [|reflexivity]. now destruct failure.
Qed.

(** C7.  [close()] never raises and leaves the handle cleared and the
    session disconnected; on a session whose handle is already absent it
    changes nothing; a second [close()] right after a first changes
    nothing; the descriptor of the handle that was held is given back. *)
Theorem close_idempotent (w : World) :
  fst (close w) = Ok tt /\
  sock (pod (snd (close w))) = None /\
  is_connected_pod (pod (snd (close w))) = false /\
  close (snd (close w)) = (Ok tt, snd (close w)) /\
  (sock (pod w) = None -> close w = (Ok tt, w)) /\
  (forall s, sock (pod w) = Some s ->
             ~ In (fileno s) (open_fds (snd (close w)))).
Proof.
  assert (Hnone : forall v, sock (pod v) = None -> close v = (Ok tt, v)).
  { intros v Hv. rewrite close_run, Hv. reflexivity. }
  assert (Hcleared : sock (pod (snd (close w))) = None).
  { rewrite close_run. destruct (sock (pod w)) eqn:Hs; [reflexivity | exact Hs]. }
  repeat split.
  - rewrite close_run. now destruct (sock (pod w)).
  - exact Hcleared.
  - unfold is_connected_pod. now rewrite Hcleared.
  - apply Hnone, Hcleared.
  - apply Hnone.
  - intros s Hs. rewrite close_run, Hs. cbn [snd open_fds]. apply remove_In.
Qed.

(** C6.  [send] never raises.  On a disconnected session it changes
    nothing.  On a connected session whose write raises [e], it logs [e]
    and closes the session: the handle is cleared, the socket closed.  On
    a connected session whose write goes through, the text is written and
    nothing else changes. *)
Theorem send_never_raises (failure : option exn) (data : string) (w : World) :
  fst (send failure data w) = Ok tt /\
  (is_connected_pod (pod w) = false -> send failure data w = (Ok tt, w)) /\
  (forall s e, sock (pod w) = Some s -> 0 <= fileno s -> failure = Some e ->
     sock (pod (snd (send failure data w))) = None /\
     is_connected_pod (pod (snd (send failure data w))) = false /\
     trace (snd (send failure data w))
     = (trace w ++ [LogError e; SockClose (fileno s)])%list) /\
  (forall s, sock (pod w) = Some s -> 0 <= fileno s -> failure = None ->
     pod (snd (send failure data w)) = pod w /\
     trace (snd (send failure data w))
     = (trace w ++ [SockSend (fileno s) data])%list).
Proof.
  split; [apply send_returns|].
  rewrite send_run.
  assert (Hconn : forall s, sock (pod w) = Some s -> 0 <= fileno s ->
                            is_connected_pod (pod w) = true).
  { intros s Hs Hfd. unfold is_connected_pod. rewrite Hs. now apply Z.leb_le. }
  refine (conj _ (conj _ _)).
  - intros Hdis. now rewrite Hdis.
  - intros s e Hs Hfd Hfail. rewrite (Hconn s Hs Hfd), Hs, Hfail.
    cbn [snd pod sock trace]. rewrite <- app_assoc.
    refine (conj eq_refl (conj eq_refl eq_refl)).
  - intros s Hs Hfd Hfail. rewrite (Hconn s Hs Hfd), Hs, Hfail.
    split; reflexivity.
Qed.

(** What [connect] raises, if it does: the first failure the network
    hands it. *)
Lemma connect_run (env : connect_env) (now : Z) (w : World) :
  connect env now w =
  match connection env with
  | Raise e => let (_, w') := close w in (Raise e, w')
  | Ok fd =>
      let s := mkSocket (Z.of_nat fd) in
      let opened :=
        mkWorld (mkPod (Some s) (addr (pod w)) (last_ping (pod w))
                       (recieved (pod w)) (state (pod w)))
                (PROMPT_TRACK w) (LAST_PROMPT w)
                (Z.of_nat fd :: open_fds w) (trace w) in
      match reuseaddr_failure env, reuseport_failure env with
      | Some e, _ | None, Some e => let (_, w') := close opened in (Raise e, w')
      | None, None =>
          (Ok tt,
           mkWorld (mkPod (Some s) (addr (pod w)) now 0 (state (pod w)))
                   (PROMPT_TRACK w) (LAST_PROMPT w)
                   (Z.of_nat fd :: open_fds w) (trace w))
      end
  end.
Proof.
  unfold connect, create_connection, setsockopt.
  destruct (connection env) as [fd|e].
  - destruct (reuseaddr_failure env) as [e1|];
      [|destruct (reuseport_failure env) as [e2|]];
      run_py; try reflexivity;
      match goal with
      | |- context [close ?v] => rewrite (close_run v); reflexivity
      end.
  - run_py. rewrite close_run. now destruct (sock (pod w)).
Qed.

(** C5.  [connect()] raises exactly when a network call of it raises,
    and what it raises is that exception.  The session is then left
    disconnected, with the handle cleared and nothing else of it changed.
    When no connection was made, the socket held before, if there was
    one, is closed and its descriptor given back; when a connection was
    made and a [setsockopt] raised, the socket just opened is closed and
    its descriptor given back.  So no descriptor is open afterwards that
    was not open before. *)
Theorem connect_failure_disconnects
  (env : connect_env) (now : Z) (w : World) (e : exn) :
  (fst (connect env now w) = Raise e <-> first_failure env = Some e) /\
  (first_failure env = Some e ->
   connect env now w =
   (Raise e,
    match connection env with
    | Raise _ =>
        match sock (pod w) with
        | Some s =>
            mkWorld (mkPod None (addr (pod w)) (last_ping (pod w))
                           (recieved (pod w)) (state (pod w)))
                    (PROMPT_TRACK w) (LAST_PROMPT w)
                    (remove Z.eq_dec (fileno s) (open_fds w))
                    (trace w ++ [SockClose (fileno s)])
        | None => w
        end
    | Ok fd =>
        mkWorld (mkPod None (addr (pod w)) (last_ping (pod w))
                       (recieved (pod w)) (state (pod w)))
                (PROMPT_TRACK w) (LAST_PROMPT w)
                (remove Z.eq_dec (Z.of_nat fd) (open_fds w))
                (trace w ++ [SockClose (Z.of_nat fd)])
    end) /\
   sock (pod (snd (connect env now w))) = None /\
   is_connected_pod (pod (snd (connect env now w))) = false /\
   incl (open_fds (snd (connect env now w))) (open_fds w) /\
   (forall fd, connection env = Ok fd ->
      ~ In (Z.of_nat fd) (open_fds (snd (connect env now w)))) /\
   (forall s, connection env = Raise e -> sock (pod w) = Some s ->
      ~ In (fileno s) (open_fds (snd (connect env now w))))).
Proof.
  assert (Hrm : forall x l, incl (remove Z.eq_dec x l) l).
  { intros x l y Hy. now apply in_remove in Hy. }
  assert (Hhead : forall x l, remove Z.eq_dec x (x :: l) = remove Z.eq_dec x l).
  { intros x l. cbn [remove]. destruct (Z.eq_dec x x); [reflexivity | congruence]. }
  rewrite connect_run. unfold first_failure.
  destruct (connection env) as [fd|e0] eqn:Hc.
  - cbv zeta.
    assert (Hopt : forall e1,
      close (mkWorld (mkPod (Some (mkSocket (Z.of_nat fd))) (addr (pod w))
                            (last_ping (pod w)) (recieved (pod w)) (state (pod w)))
                     (PROMPT_TRACK w) (LAST_PROMPT w)
                     (Z.of_nat fd :: open_fds w) (trace w))
      = (Ok tt,
         mkWorld (mkPod None (addr (pod w)) (last_ping (pod w))
                        (recieved (pod w)) (state (pod w)))
                 (PROMPT_TRACK w) (LAST_PROMPT w)
                 (remove Z.eq_dec (Z.of_nat fd) (open_fds w))
                 (trace w ++ [SockClose (Z.of_nat fd)])) /\
      (e1 = e ->
       incl (remove Z.eq_dec (Z.of_nat fd) (open_fds w)) (open_fds w) /\
       ~ In (Z.of_nat fd) (remove Z.eq_dec (Z.of_nat fd) (open_fds w)))).
    { intros e1. rewrite close_run.
      cbn [pod sock fileno addr last_ping recieved state PROMPT_TRACK
           LAST_PROMPT open_fds trace].
      rewrite Hhead. split; [reflexivity|]. intros _.
      split; [apply Hrm | apply remove_In]. }
    destruct (reuseaddr_failure env) as [e1|];
      [|destruct (reuseport_failure env) as [e2|]].
    + destruct (Hopt e1) as [Hclose Hfds]. rewrite Hclose. cbn [fst snd].
      split; [split; congruence|]. intros He. inversion He; subst e1.
      destruct (Hfds eq_refl) as [Hincl Hnot].
      refine (conj eq_refl (conj eq_refl (conj eq_refl (conj Hincl (conj _ _))))).
      * intros fd' Hfd'. inversion Hfd'; subst. exact Hnot.
      * intros s Habs. discriminate Habs.
    + destruct (Hopt e2) as [Hclose Hfds]. rewrite Hclose. cbn [fst snd].
      split; [split; congruence|]. intros He. inversion He; subst e2.
      destruct (Hfds eq_refl) as [Hincl Hnot].
      refine (conj eq_refl (conj eq_refl (conj eq_refl (conj Hincl (conj _ _))))).
      * intros fd' Hfd'. inversion Hfd'; subst. exact Hnot.
      * intros s Habs. discriminate Habs.
    + cbn [fst]. split; [split; discriminate | discriminate].
  - rewrite close_run.
    destruct (sock (pod w)) as [s|] eqn:Hs; cbn [fst snd].
    + split; [split; congruence|]. intros He. inversion He; subst e0.
      cbn [pod sock open_fds]. unfold is_connected_pod. cbn [sock].
      refine (conj eq_refl (conj eq_refl (conj eq_refl (conj (Hrm _ _) (conj _ _))))).
      * intros fd Habs. discriminate Habs.
      * intros s0 _ Hs0. inversion Hs0; subst. apply remove_In.
    + split; [split; congruence|]. intros He. inversion He; subst e0.
      unfold is_connected_pod. rewrite Hs.
      refine (conj eq_refl (conj eq_refl (conj eq_refl (conj _ (conj _ _))))).
      * apply incl_refl.
      * intros fd Habs. discriminate Habs.
      * intros s0 _ Hs0. discriminate Hs0.
Qed.

(** ** [make_prompt], [Pod.ping], [Pod.handle_data] *)

Section ProgramFacts.

Context {A : Ansi}.

Lemma make_prompt_known (extra : string) (w : World) (st : PodState) :
  state (pod w) = Some st ->
  let details :=
    (fst (addr (pod w)) ++ ":" ++ Py.fmt_d (snd (addr (pod w))))
      ++ " " ++ short st in
  let line :=
    make_bold ("Pod(" ++ (if is_fault st then make_red details
                          else make_green details) ++ ")" ++ extra) in
  make_prompt extra w =
  (Ok (padded (LAST_PROMPT w) line),
   mkWorld (pod w) (PROMPT_TRACK w) (Py.rstrip (padded (LAST_PROMPT w) line))
           (open_fds w) (trace w)).
Proof.
  intros Hst. unfold make_prompt, padded. run_py. rewrite Hst.
  destruct (is_fault st); run_py; reflexivity.
Qed.

Lemma make_prompt_unknown (extra : string) (w : World) :
  state (pod w) = None ->
  let track := (PROMPT_TRACK w + 1) mod 5 in
  let walker := Py.mul "." track ++ Py.mul " " (4 - track) in
  let details :=
    (fst (addr (pod w)) ++ ":" ++ Py.fmt_d (snd (addr (pod w))))
      ++ " " ++ walker in
  let line := make_bold ("Pod(" ++ make_yellow details ++ ")" ++ extra) in
  make_prompt extra w =
  (Ok (padded (LAST_PROMPT w) line),
   mkWorld (pod w) track (Py.rstrip (padded (LAST_PROMPT w) line))
           (open_fds w) (trace w)).
Proof.
  intros Hst. unfold make_prompt, progress, padded. run_py. rewrite Hst.
  run_py. reflexivity.
Qed.

(** [make_prompt] returns a line and touches the two globals only. *)
Lemma make_prompt_frame (extra : string) (w : World) :
  exists text track,
    make_prompt extra w =
    (Ok text, mkWorld (pod w) track (Py.rstrip text) (open_fds w) (trace w)).
Proof.
  destruct (state (pod w)) as [st|] eqn:Hst.
  - rewrite (make_prompt_known extra w st Hst). eauto.
  - rewrite (make_prompt_unknown extra w Hst). eauto.
Qed.

(** The padding is counted from the length of the last prompt as it was
    written, markup included, not from its visible width. *)
Lemma make_prompt_padding (extra : string) (w : World) (st : PodState) :
  state (pod w) = Some st ->
  let details :=
    (fst (addr (pod w)) ++ ":" ++ Py.fmt_d (snd (addr (pod w))))
      ++ " " ++ short st in
  let line :=
    make_bold ("Pod(" ++ (if is_fault st then make_red details
                          else make_green details) ++ ")" ++ extra) in
  Py.len (strip (LAST_PROMPT w)) = 20 ->
  Py.len (strip line) = 12 ->
  fst (make_prompt extra w)
  = Ok (line ++ Py.mul " " (Py.len (LAST_PROMPT w) - 12)).
Proof.
  intros Hst details line Hlast Hline.
  rewrite (make_prompt_known extra w st Hst). cbn [fst].
  unfold padded. fold details. fold line. rewrite Hlast, Hline. reflexivity.
Qed.

End ProgramFacts.

Section SessionFacts.

Context {A : Ansi}.

Lemma ping_run (failure : option exn) (now : Z) (w : World) :
  ping failure now w =
  let w1 := snd (send failure "ping" w) in
  if is_connected_pod (pod w1)
     && (now - last_ping (pod w1) >? PING_TIMEOUT)
     && (recieved (pod w1) >? 0)
  then close (mkWorld (pod w1) (PROMPT_TRACK w1) (LAST_PROMPT w1) (open_fds w1)
                      (trace w1 ++
                       [Stdout (make_bold (make_red "PING TIMEOUT!") ++ Py.chr 10)]))
  else (Ok tt, w1).
Proof.
  unfold ping. unfold bind at 1.
  pose proof (send_returns failure "ping" w) as Hok.
  destruct (send failure "ping" w) as [r w1]. cbn [fst snd] in *. subst r.
  run_py. unfold is_connected. run_py.
  destruct (is_connected_pod (pod w1) && (now - last_ping (pod w1) >? 1000000)
            && (recieved (pod w1) >? 0)) eqn:Hc;
    unfold PING_TIMEOUT; rewrite Hc; reflexivity.
Qed.

(** C2, as the code has it.  [ping] never raises.  On a session that is
    not connected it changes nothing: the probe is not written.  On a
    connected session the probe "ping" is written first; if that write
    raises, the error is logged and the session is closed, whatever the
    counters say; if it goes through, the timeout notice is printed and
    the session closed exactly when [now - last_ping] exceeds one second
    and [recieved > 0].  So [ping] closes the session if and only if the
    session is connected and either the write of the probe fails or both
    timeout conditions hold. *)
Theorem ping_closes_iff (failure : option exn) (now : Z) (w : World) :
  let w' := snd (ping failure now w) in
  let notice := Stdout (make_bold (make_red "PING TIMEOUT!") ++ Py.chr 10) in
  fst (ping failure now w) = Ok tt /\
  (is_connected_pod (pod w) = false -> w' = w) /\
  (forall s, sock (pod w) = Some s -> 0 <= fileno s ->
     match failure with
     | Some e =>
         sock (pod w') = None /\
         trace w' = (trace w ++ [LogError e; SockClose (fileno s)])%list
     | None =>
         if (now - last_ping (pod w) >? PING_TIMEOUT) && (recieved (pod w) >? 0)
         then sock (pod w') = None /\
              trace w' = (trace w ++ [SockSend (fileno s) "ping"; notice;
                                      SockClose (fileno s)])%list
         else sock (pod w') = sock (pod w) /\
              trace w' = (trace w ++ [SockSend (fileno s) "ping"])%list
     end) /\
  ((sock (pod w) <> None /\ sock (pod w') = None) <->
   (is_connected_pod (pod w) = true /\
    (failure <> None \/
     (recieved (pod w) > 0 /\ now - last_ping (pod w) > PING_TIMEOUT)))).
Proof.
  cbv zeta. rewrite ping_run. cbv zeta. rewrite send_run.
  destruct (is_connected_pod (pod w)) eqn:Hconn.
  - pose proof Hconn as Hfd. unfold is_connected_pod in Hfd.
    destruct (sock (pod w)) as [s|] eqn:Hs; [|discriminate].
    destruct failure as [e|].
    + cbn [snd pod sock andb fst is_connected_pod trace].
      refine (conj eq_refl (conj _ (conj _ (conj _ _)))).
      * discriminate.
      * intros s0 Hs0 _. inversion Hs0; subst. now rewrite <- app_assoc.
      * intros _. split; [reflexivity | left; discriminate].
      * intros _. split; [discriminate | reflexivity].
    + cbn [snd pod sock last_ping recieved]. rewrite Hconn. cbn [andb].
      destruct ((now - last_ping (pod w) >? PING_TIMEOUT) && (recieved (pod w) >? 0))
        eqn:Hc.
      * rewrite close_run. cbn [fst snd pod sock trace]. rewrite Hs.
        cbn [fst snd pod sock trace].
        apply andb_true_iff in Hc as [H1 H2].
        rewrite Z.gtb_ltb in H1, H2. apply Z.ltb_lt in H1, H2.
        refine (conj eq_refl (conj _ (conj _ (conj _ _)))).
        -- discriminate.
        -- intros s0 Hs0 _. inversion Hs0; subst.
           rewrite <- !app_assoc. split; reflexivity.
        -- intros _. split; [reflexivity | right; lia].
        -- intros _. split; [discriminate | reflexivity].
      * cbn [fst snd pod sock trace]. rewrite Hs.
        refine (conj eq_refl (conj _ (conj _ (conj _ _)))).
        -- discriminate.
        -- intros s0 Hs0 _. inversion Hs0; subst. split; reflexivity.
        -- intros [_ H]; discriminate.
        -- intros [_ [H|[H1 H2]]]; [congruence|].
           apply andb_false_iff in Hc as [Hc|Hc];
             rewrite Z.gtb_ltb in Hc; apply Z.ltb_ge in Hc; lia.
  - cbn [snd fst]. rewrite Hconn. cbn [andb fst snd].
    refine (conj eq_refl (conj _ (conj _ (conj _ _)))).
    + reflexivity.
    + intros s Hs Hle. unfold is_connected_pod in Hconn. rewrite Hs in Hconn.
      apply Z.leb_gt in Hconn. lia.
    + intros [H1 H2]. congruence.
    + intros [H1 H2]. congruence.
Qed.

End SessionFacts.

Section IncomingFacts.

Context {A : Ansi}.

(** The world once the bookkeeping of a liveness reply is done. *)
Lemma handle_data_pong (now : Z) (data : string) (w : World) :
  Py.contains "PONG" data = true ->
  let counted :=
    mkWorld (mkPod (sock (pod w)) (addr (pod w)) now (recieved (pod w) + 1)
                   (state (pod w)))
            (PROMPT_TRACK w) (LAST_PROMPT w) (open_fds w) (trace w) in
  handle_data now data w =
  match nth_error (Py.split ":" data) 1 with
  | None => (Raise IndexError, counted)
  | Some token =>
      match Py.int_of_str token with
      | None => (Raise ValueError, counted)
      | Some n =>
          let st := mkPodState n in
          let updated :=
            mkPod (sock (pod w)) (addr (pod w)) now (recieved (pod w) + 1)
                  (Some st) in
          if match state (pod w) with
             | None => true
             | Some known => negb (n =? _state known)
             end
          then
            match make_prompt "> "
                    (mkWorld updated (PROMPT_TRACK w) (LAST_PROMPT w) (open_fds w)
                             (trace w ++ [Stdout (Py.chr 13)]))
            with
            | (Ok prompt, w') =>
                (Ok false,
                 mkWorld (mkPod (sock (pod w')) (addr (pod w')) (last_ping (pod w'))
                                (recieved (pod w')) (Some st))
                         (PROMPT_TRACK w') (LAST_PROMPT w') (open_fds w')
                         (trace w' ++ [Stdout prompt]))
            | (Raise e, w') => (Raise e, w')
            end
          else (Ok false,
                mkWorld updated (PROMPT_TRACK w) (LAST_PROMPT w) (open_fds w)
                        (trace w))
      end
  end.
Proof.
  intros Hpong. unfold handle_data, index. rewrite Hpong. run_py.
  destruct (nth_error (Py.split ":" data) 1) as [token|]; run_py; [|reflexivity].
  rewrite PodState_init_str.
  destruct (Py.int_of_str token) as [n|]; run_py; [|reflexivity].
  cbn [_state].
  destruct (match state (pod w) with
            | None => true
            | Some known => negb (n =? _state known)
            end); run_py; [|reflexivity].
  destruct (make_prompt "> " _) as [[prompt|e] w']; reflexivity.
Qed.

(** The same with the prompt rendered. *)
Lemma handle_data_pong_state
  (now : Z) (data token : string) (n : Z) (w : World) :
  Py.contains "PONG" data = true ->
  nth_error (Py.split ":" data) 1 = Some token ->
  Py.int_of_str token = Some n ->
  let updated :=
    mkPod (sock (pod w)) (addr (pod w)) now (recieved (pod w) + 1)
          (Some (mkPodState n)) in
  if match state (pod w) with
     | None => true
     | Some known => negb (n =? _state known)
     end
  then exists prompt track,
      fst (make_prompt "> "
             (mkWorld updated (PROMPT_TRACK w) (LAST_PROMPT w) (open_fds w)
                      (trace w ++ [Stdout (Py.chr 13)]))) = Ok prompt /\
      handle_data now data w =
      (Ok false,
       mkWorld updated track (Py.rstrip prompt) (open_fds w)
               (trace w ++ [Stdout (Py.chr 13); Stdout prompt]))
  else handle_data now data w =
       (Ok false,
        mkWorld updated (PROMPT_TRACK w) (LAST_PROMPT w) (open_fds w) (trace w)).
Proof.
  intros Hpong Htok Hint. cbv zeta.
  rewrite (handle_data_pong now data w Hpong). cbv zeta. rewrite Htok, Hint.
  destruct (match state (pod w) with
            | None => true
            | Some known => negb (n =? _state known)
            end); [|reflexivity].
  match goal with
  | |- context [make_prompt "> " ?v] =>
      destruct (make_prompt_frame "> " v) as (prompt & track & Hp)
  end.
  exists prompt, track. rewrite Hp. cbn [fst pod sock addr last_ping recieved
    PROMPT_TRACK LAST_PROMPT open_fds trace].
  split; [reflexivity|]. now rewrite <- app_assoc.
Qed.

Lemma handle_data_other (now : Z) (data : string) (w : World) :
  Py.contains "PONG" data = false ->
  handle_data now data w =
  (Ok true,
   mkWorld (pod w) (PROMPT_TRACK w) (LAST_PROMPT w) (open_fds w)
           (trace w ++ [Stdout data])).
Proof. intros Hpong. unfold handle_data. rewrite Hpong. reflexivity. Qed.

(** A reply redraws the prompt exactly when it brings a state other than
    the one known. *)
Lemma handle_data_redraw_iff_changed
  (now : Z) (data token : string) (n : Z) (w : World) (known : PodState) :
  Py.contains "PONG" data = true ->
  nth_error (Py.split ":" data) 1 = Some token ->
  Py.int_of_str token = Some n ->
  state (pod w) = Some known ->
  trace (snd (handle_data now data w)) = trace w <-> n = _state known.
Proof.
  intros Hpong Htok Hint Hknown.
  pose proof (handle_data_pong_state now data token n w Hpong Htok Hint) as H.
  cbv zeta in H. rewrite Hknown in H.
  destruct (Z.eqb_spec n (_state known)) as [E|E]; cbn [negb] in H.
  - rewrite H. cbn [snd trace]. tauto.
  - destruct H as (prompt & track & _ & H). rewrite H. cbn [snd trace].
    split; [|contradiction].
    intros Habs. apply (f_equal (@List.length event)) in Habs.
    rewrite length_app in Habs. cbn in Habs. lia.
Qed.

End IncomingFacts.

Section IncomingClaims.

Context {A : Ansi}.

(** C1, as the code has it.  The state travels as its ordinal: ARMED is
    6.  On a session with no state known, [handle_data("PONG:6")] returns
    [False], sets the state to ARMED, [last_ping] to now, adds one to
    [recieved], and redraws: it writes a carriage return and then the
    prompt rendered for ARMED.  The same reply again returns [False],
    updates [last_ping] and [recieved], and writes nothing. *)
Theorem handle_data_first_reply_redraws (now later : Z) (w : World) :
  state (pod w) = None ->
  let armed := mkPodState 6 in
  let details :=
    (fst (addr (pod w)) ++ ":" ++ Py.fmt_d (snd (addr (pod w)))) ++ " " ++ "ARMD" in
  let prompt :=
    padded (LAST_PROMPT w) (make_bold ("Pod(" ++ make_green details ++ ")" ++ "> ")) in
  let w1 := snd (handle_data now "PONG:6" w) in
  let w2 := snd (handle_data later "PONG:6" w1) in
  str armed = "ARMED" /\
  fst (handle_data now "PONG:6" w) = Ok false /\
  pod w1 = mkPod (sock (pod w)) (addr (pod w)) now (recieved (pod w) + 1)
                 (Some armed) /\
  trace w1 = (trace w ++ [Stdout (Py.chr 13); Stdout prompt])%list /\
  fst (handle_data later "PONG:6" w1) = Ok false /\
  pod w2 = mkPod (sock (pod w)) (addr (pod w)) later (recieved (pod w) + 2)
                 (Some armed) /\
  trace w2 = trace w1.
Proof.
  intros Hnone. cbv zeta.
  pose proof (handle_data_pong_state now "PONG:6" "6" 6 w
                eq_refl eq_refl eq_refl) as H1.
  cbv zeta in H1. rewrite Hnone in H1.
  destruct H1 as (prompt & track & Hprompt & H1).
  match type of Hprompt with
  | fst (make_prompt "> " ?v) = _ =>
      rewrite (make_prompt_known "> " v (mkPodState 6) eq_refl) in Hprompt
  end.
  cbn [fst pod addr LAST_PROMPT] in Hprompt.
  change (is_fault (mkPodState 6)) with false in Hprompt.
  change (short (mkPodState 6)) with "ARMD" in Hprompt.
  inversion Hprompt as [Hp]. clear Hprompt.
  rewrite H1. cbn [fst snd pod trace].
  match goal with
  | |- context [handle_data later "PONG:6" ?v] =>
      pose proof (handle_data_pong_state later "PONG:6" "6" 6 v
                    eq_refl eq_refl eq_refl) as H2
  end.
  cbv zeta in H2. cbn [pod state _state sock addr recieved PROMPT_TRACK LAST_PROMPT
                       open_fds trace] in H2.
  change (negb (6 =? 6)) with false in H2. cbv iota in H2.
  rewrite H2. cbn [fst snd pod trace].
  refine (conj eq_refl (conj eq_refl (conj eq_refl (conj _
            (conj eq_refl (conj _ eq_refl)))))).
  - rewrite <- Hp. reflexivity.
  - f_equal. lia.
Qed.


(** C10, as the code has it.  Let the data contain "PONG".
    [handle_data] raises exactly when [data.split(":")] has no second
    field ([IndexError]) or [int] rejects the second field
    ([ValueError]).  When it raises, [last_ping] is already set to now
    and [recieved] already counted, and nothing else has changed: the
    state known before is still there and nothing was written. *)
Theorem handle_data_malformed_reply (now : Z) (data : string) (w : World) :
  Py.contains "PONG" data = true ->
  let malformed :=
    nth_error (Py.split ":" data) 1 = None \/
    exists token, nth_error (Py.split ":" data) 1 = Some token /\
                  Py.int_of_str token = None in
  ((exists e, fst (handle_data now data w) = Raise e) <-> malformed) /\
  (malformed ->
   handle_data now data w =
   (Raise match nth_error (Py.split ":" data) 1 with
          | None => IndexError
          | Some _ => ValueError
          end,
    mkWorld (mkPod (sock (pod w)) (addr (pod w)) now (recieved (pod w) + 1)
                   (state (pod w)))
            (PROMPT_TRACK w) (LAST_PROMPT w) (open_fds w) (trace w))).
Proof.
  intros Hpong. cbv zeta.
  pose proof (handle_data_pong now data w Hpong) as H. cbv zeta in H.
  destruct (nth_error (Py.split ":" data) 1) as [token|] eqn:Htok.
  2:{ rewrite H. split; [split; [auto | cbn; eauto] | reflexivity]. }
  destruct (Py.int_of_str token) as [n|] eqn:Hint.
  2:{ rewrite H. split; [split; [eauto | cbn; eauto] | reflexivity]. }
  clear H.
  assert (Hwell : ~ (Some token = None \/
                     exists t, Some token = Some t /\ Py.int_of_str t = None)).
  { intros [Hn|[t [Ht Hi]]]; [discriminate|]. inversion Ht; subst. congruence. }
  pose proof (handle_data_pong_state now data token n w Hpong Htok Hint) as H.
  cbv zeta in H.
  split; [|intros Hm; contradiction].
  split; [|intros Hm; contradiction].
  intros [e He].
  destruct (match state (pod w) with
            | None => true
            | Some known => negb (n =? _state known)
            end).
  - destruct H as (prompt & track & _ & H). rewrite H in He. discriminate.
  - rewrite H in He. discriminate.
Qed.

End IncomingClaims.

(** ** [Heart] *)

Section HeartFacts.

Import Beat.

Variable St : Type.
Variable callback : St -> St * option exn.







End HeartFacts.


(** ** The program at work *)

(** C1 as the spec words it fails: the reply "PONG:ARMED" on a session
    with no state known raises [ValueError]; the state stays unknown and
    nothing is drawn. *)
Lemma handle_data_name_token_raises :
  state (pod initial_world) = None /\
  fst (handle_data (A:=Sgr.ansi) 5 "PONG:ARMED" initial_world) = Raise ValueError /\
  state (pod (snd (handle_data (A:=Sgr.ansi) 5 "PONG:ARMED" initial_world))) = None /\
  trace (snd (handle_data (A:=Sgr.ansi) 5 "PONG:ARMED" initial_world)) = [].
Proof. vm_compute. repeat split. Qed.

Lemma handle_data_first_reply_redraws_example :
  state (pod initial_world) = None /\
  state (pod (snd (handle_data (A:=Sgr.ansi) 5 "PONG:6" initial_world)))
  = Some (mkPodState 6) /\
  trace (snd (handle_data (A:=Sgr.ansi) 9 "PONG:6"
                (snd (handle_data (A:=Sgr.ansi) 5 "PONG:6" initial_world))))
  = trace (snd (handle_data (A:=Sgr.ansi) 5 "PONG:6" initial_world)).
Proof.
  split; [reflexivity|].
  destruct (handle_data_first_reply_redraws (A:=Sgr.ansi) 5 9 initial_world eq_refl)
    as (_ & _ & Hpod & _ & _ & _ & Htrace).
  split; [now rewrite Hpod | exact Htrace].
Defined.

(** C2 as the spec words it fails: on a connected session with
    [recieved = 0] and [last_ping] two seconds back, a [ping] whose write
    raises closes the session. *)
Lemma ping_closes_on_failed_write :
  let w := connected_world in
  let w' := snd (ping (A:=Sgr.ansi) (Some (OSError "Broken pipe")) 2000000 w) in
  is_connected_pod (pod w) = true /\ recieved (pod w) = 0 /\
  2000000 - last_ping (pod w) > PING_TIMEOUT /\
  sock (pod w') = None /\
  trace w' = [LogError (OSError "Broken pipe"); SockClose 3] /\
  ~ ((sock (pod w) <> None /\ sock (pod w') = None) <->
     (is_connected_pod (pod w) = true /\ recieved (pod w) > 0 /\
      2000000 - last_ping (pod w) > PING_TIMEOUT)).
Proof.
  cbv zeta. refine (conj eq_refl (conj eq_refl (conj eq_refl
                     (conj eq_refl (conj eq_refl _))))).
  intros [H _].
  assert (Hcount : recieved (pod connected_world) > 0).
  { apply H. split; [discriminate | reflexivity]. }
  vm_compute in Hcount. discriminate Hcount.
Qed.

Lemma ping_closes_iff_example :
  sock (pod (snd (ping (A:=Sgr.ansi) None 2000000 connected_world)))
  = sock (pod connected_world) /\
  trace (snd (ping (A:=Sgr.ansi) None 2000000 connected_world))
  = [SockSend 3 "ping"].
Proof.
  destruct (ping_closes_iff (A:=Sgr.ansi) None 2000000 connected_world)
    as (_ & _ & H & _).
  apply (H (mkSocket 3)); [reflexivity | cbn; lia].
Defined.

(** C4, where the code departs from it.  With the SGR markup, the prompt
    of the ARMED pod at [("", 1)] drawn with [" ! boom "] is 20 characters
    wide on the screen and 37 characters long as written.  The prompt
    drawn next with an empty [extra] is 12 characters wide; it comes back
    with 25 trailing blanks, 37 - 12, not with 8. *)
Theorem make_prompt_pads_from_raw_length :
  let w1 := snd (make_prompt (A:=Sgr.ansi) " ! boom " armed_world) in
  let line := Sgr.wrap "1" ("Pod(" ++ Sgr.wrap "32" ":1 ARMD" ++ ")") in
  Py.len (@strip Sgr.ansi (LAST_PROMPT w1)) = 20 /\
  Py.len (LAST_PROMPT w1) = 37 /\
  Py.len (@strip Sgr.ansi line) = 12 /\
  fst (make_prompt (A:=Sgr.ansi) "" w1) = Ok (line ++ Py.mul " " 25) /\
  fst (make_prompt (A:=Sgr.ansi) "" w1) <> Ok (line ++ Py.mul " " 8).
Proof.
  cbv zeta. refine (conj _ (conj _ (conj _ (conj _ _)))); try (vm_compute; reflexivity).
  vm_compute. discriminate.
Qed.

Lemma connect_failure_disconnects_example :
  connect (mkConnectEnv (Raise (OSError "Connection refused")) None None) 7
          connected_world
  = (Raise (OSError "Connection refused"),
     mkWorld (mkPod None ("127.0.0.1", 7779) 0 0 None) 0 "" [] [SockClose 3]) /\
  connect (mkConnectEnv (Ok 4%nat) None (Some (OSError "Protocol not available")))
          7 initial_world
  = (Raise (OSError "Protocol not available"),
     mkWorld (mkPod None ("127.0.0.1", 7779) 0 0 None) 0 "" [] [SockClose 4]).
Proof.
  split.
  - exact (proj1 (proj2 (connect_failure_disconnects
             (mkConnectEnv (Raise (OSError "Connection refused")) None None) 7
             connected_world (OSError "Connection refused")) eq_refl)).
  - exact (proj1 (proj2 (connect_failure_disconnects
             (mkConnectEnv (Ok 4%nat) None (Some (OSError "Protocol not available")))
             7 initial_world (OSError "Protocol not available")) eq_refl)).
Defined.

Lemma send_never_raises_example :
  fst (send (Some (OSError "Broken pipe")) "help" connected_world) = Ok tt /\
  sock (pod (snd (send (Some (OSError "Broken pipe")) "help" connected_world)))
  = None /\
  send None "help" initial_world = (Ok tt, initial_world).
Proof.
  destruct (send_never_raises (Some (OSError "Broken pipe")) "help" connected_world)
    as (Hok & _ & Hfail & _).
  destruct (Hfail (mkSocket 3) (OSError "Broken pipe") eq_refl
                  ltac:(cbn; lia) eq_refl) as (Hsock & _).
  destruct (send_never_raises None "help" initial_world) as (_ & Hnoop & _).
  exact (conj Hok (conj Hsock (Hnoop eq_refl))).
Defined.

Lemma close_idempotent_example :
  close connected_world
  = (Ok tt, mkWorld (mkPod None ("127.0.0.1", 7779) 0 0 None) 0 "" []
                    [SockClose 3]) /\
  close (snd (close connected_world)) = (Ok tt, snd (close connected_world)) /\
  close initial_world = (Ok tt, initial_world).
Proof.
  destruct (close_idempotent connected_world) as (_ & _ & _ & Htwice & _).
  destruct (close_idempotent initial_world) as (_ & _ & _ & _ & Hnoop & _).
  exact (conj eq_refl (conj Htwice (Hnoop eq_refl))).
Defined.




(** C10 as it is worded fails: in "PONG:6:x" what follows the first ":"
    is "6:x", which [int] rejects, and yet [handle_data] does not raise:
    it reads the field "6" and sets the state. *)
Lemma handle_data_reads_second_field :
  "PONG:6:x" = "PONG" ++ ":" ++ "6:x" /\
  Py.contains ":" "PONG" = false /\
  Py.contains "PONG" "PONG:6:x" = true /\
  Py.int_of_str "6:x" = None /\
  fst (handle_data (A:=Sgr.ansi) 5 "PONG:6:x" initial_world) = Ok false /\
  state (pod (snd (handle_data (A:=Sgr.ansi) 5 "PONG:6:x" initial_world)))
  = Some (mkPodState 6).
Proof. vm_compute. repeat split. Qed.

Lemma handle_data_malformed_reply_example :
  Py.contains "PONG" "PONG" = true /\
  handle_data (A:=Sgr.ansi) 5 "PONG" initial_world
  = (Raise IndexError,
     mkWorld (mkPod None ("127.0.0.1", 7779) 5 1 None) 0 "" [] []) /\
  handle_data (A:=Sgr.ansi) 5 "PONG:ARMED" initial_world
  = (Raise ValueError,
     mkWorld (mkPod None ("127.0.0.1", 7779) 5 1 None) 0 "" [] []).
Proof.
  split; [reflexivity|]. split.
  - apply (handle_data_malformed_reply (A:=Sgr.ansi) 5 "PONG" initial_world eq_refl).
    left; reflexivity.
  - apply (handle_data_malformed_reply (A:=Sgr.ansi) 5 "PONG:ARMED" initial_world
             eq_refl).
    right; exists "ARMED"; split; reflexivity.
Defined.

(** * More of the program *)

(** ** The states and their names *)

Lemma ordinal_cases (n : Z) :
  (n < 0 \/ 13 < n) \/
  In n [0; 1; 2; 3; 4; 5; 6; 7; 8; 9; 10; 11; 12; 13].
Proof. cbn [In]. lia. Qed.

Ltac each_ordinal n :=
  let H := fresh "Hord" in
  destruct (ordinal_cases n) as [H|H];
  [| cbn [In] in H;
     repeat (destruct H as [H|H]; [symmetry in H; subst n|]); [..|contradiction]].

(** X1.  [is_fault] holds of the state that prints as "EMERGENCY" and of
    no other; [is_moving] holds of the states that print as "PUSHING",
    "COASTING" and "BRAKING" and of no other; no state is both, and an
    unknown state is neither. *)
Theorem fault_and_motion_by_name (s : PodState) :
  (is_fault s = true <-> str s = "EMERGENCY") /\
  (is_moving s = true <->
   str s = "PUSHING" \/ str s = "COASTING" \/ str s = "BRAKING") /\
  is_fault s && is_moving s = false /\
  (str s = "UNKNOWN" -> is_fault s = false /\ is_moving s = false).
Proof.
  destruct s as [n]. each_ordinal n;
    [| vm_compute; repeat split; try discriminate; auto;
       try (intros [H|[H|H]]; discriminate) ..].
  destruct (unknown_ordinal n Hord) as [Hm _].
  unfold str, is_fault, is_moving. cbn [_state]. rewrite Hm.
  change (ordinal_of "EMERGENCY") with 12.
  change (ordinal_of "BRAKING") with 9.
  change (ordinal_of "COASTING") with 8.
  change (ordinal_of "PUSHING") with 7.
  cbn [existsb].
  destruct (Z.eqb_spec n 12); [lia|].
  destruct (Z.eqb_spec n 9); [lia|].
  destruct (Z.eqb_spec n 8); [lia|].
  destruct (Z.eqb_spec n 7); [lia|].
  cbn. repeat split; try discriminate.
  intros [H|[H|H]]; discriminate.
Qed.

Lemma lookup_in (table : list (string * Z)) (name : string) (n : Z) :
  NoDup (map fst table) ->
  lookup table name = Some n <-> In (name, n) table.
Proof.
  induction table as [|[key val] rest IH]; intros Hnd.
  - split; [discriminate | contradiction].
  - cbn [map fst] in Hnd. inversion Hnd as [|k ks Hfresh Hrest]; subst.
    cbn [lookup In]. destruct (String.eqb_spec key name) as [->|Hne].
    + split.
      * intros H; inversion H; auto.
      * intros [H|H]; [now inversion H|].
        exfalso. apply Hfresh. apply (in_map fst) in H. exact H.
    + rewrite (IH Hrest). split; [auto|].
      intros [H|H]; [inversion H; contradiction | exact H].
Qed.

Lemma MAP_names_differ : NoDup (map fst MAP).
Proof.
  unfold MAP. cbn [map fst].
  repeat (constructor; [cbn [In]; intuition discriminate|]). constructor.
Qed.

(** X2.  [PodStateType.__getattr__], the hook Python falls back on for
    an attribute of the class [PodState] that the ordinary lookup does
    not find, returns an ordinal exactly for the 14 names of [MAP], and
    then the ordinal of the table; for any other name it raises
    [AttributeError] with that name.  The name a state prints as leads
    back to its ordinal through the hook exactly when the ordinal is one
    of 0..13: for the "UNKNOWN" of the others the hook raises. *)
Theorem getattr_round_trip :
  (forall name n, getattr name = Ok n <-> In (name, n) MAP) /\
  (forall name, (forall n, ~ In (name, n) MAP) ->
                getattr name = Raise (AttributeError name)) /\
  (forall s, getattr (str s) = Ok (_state s) <-> 0 <= _state s <= 13).
Proof.
  assert (Hget : forall name n, getattr name = Ok n <-> In (name, n) MAP).
  { intros name n. rewrite <- (lookup_in MAP name n MAP_names_differ).
    unfold getattr. destruct (lookup MAP name); split; congruence. }
  refine (conj Hget (conj _ _)).
  - intros name Hout. unfold getattr.
    destruct (lookup MAP name) as [n|] eqn:Hl; [|reflexivity].
    apply (lookup_in MAP name n MAP_names_differ) in Hl.
    now apply Hout in Hl.
  - intros [n]. cbn [_state]. each_ordinal n;
      [| vm_compute; split; [intros _; split; discriminate | reflexivity] ..].
    destruct (unknown_ordinal n Hord) as [Hm _].
    unfold str. cbn [_state]. rewrite Hm. split; [discriminate | lia].
Qed.

(** X3.  The short form of a state is always 4 characters wide, known or
    not, and a state has the short form "----" exactly when it prints as
    "UNKNOWN": the two tables know the same ordinals. *)
Theorem short_is_four_wide (s : PodState) :
  String.length (short s) = 4%nat /\
  (short s = "----" <-> str s = "UNKNOWN").
Proof.
  destruct s as [n]. each_ordinal n;
    [| vm_compute; split; [reflexivity | split; discriminate] ..].
  destruct (unknown_ordinal n Hord) as [Hm Hs].
  unfold str, short. cbn [_state]. rewrite Hm, Hs. split; [reflexivity | tauto].
Qed.

(** ** Ordinals as text *)

Lemma chars_app (a b : string) :
  list_ascii_of_string (a ++ b)
  = (list_ascii_of_string a ++ list_ascii_of_string b)%list.
Proof. induction a as [|c a IH]; [reflexivity | cbn; now rewrite IH]. Qed.

Lemma digit_not_underscore (c : ascii) :
  Py.is_digit c = true -> Py.is_underscore c = false.
Proof.
  unfold Py.is_digit, Py.is_underscore. intros H.
  apply andb_true_iff in H as [H1 H2]. apply Z.leb_le in H1, H2.
  apply Z.eqb_neq. lia.
Qed.

Lemma digit_not_space (c : ascii) :
  Py.is_digit c = true -> Py.isspace_c c = false.
Proof.
  unfold Py.is_digit, Py.isspace_c. intros H.
  apply andb_true_iff in H as [H1 H2]. apply Z.leb_le in H1, H2.
  apply orb_false_iff. split.
  - apply andb_false_iff. right. apply Z.leb_gt. lia.
  - apply Z.eqb_neq. lia.
Qed.

Lemma space_not_digit (c : ascii) :
  Py.isspace_c c = true -> Py.is_digit c || Py.is_underscore c = false.
Proof.
  intros Hs. destruct (Py.is_digit c) eqn:Hd.
  - apply digit_not_space in Hd. congruence.
  - unfold Py.isspace_c, Py.is_underscore in *. cbn [orb].
    apply Z.eqb_neq. apply orb_true_iff in Hs as [Hs|Hs].
    + apply andb_true_iff in Hs as [H1 H2]. apply Z.leb_le in H1, H2. lia.
    + apply Z.eqb_eq in Hs. lia.
Qed.

Lemma space_is_ascii (c : ascii) :
  Py.isspace_c c = true -> (Py.code c <? 128) = true.
Proof.
  unfold Py.isspace_c. intros Hs. apply Z.ltb_lt.
  apply orb_true_iff in Hs as [Hs|Hs].
  - apply andb_true_iff in Hs as [H1 H2]. apply Z.leb_le in H1, H2. lia.
  - apply Z.eqb_eq in Hs. lia.
Qed.

Lemma digit_is_ascii (c : ascii) :
  Py.is_digit c = true -> (Py.code c <? 128) = true.
Proof.
  unfold Py.is_digit. intros H. apply andb_true_iff in H as [H1 H2].
  apply Z.leb_le in H2. apply Z.ltb_lt. lia.
Qed.

(** The digits [fmt_d] writes for a number without its sign. *)
Lemma uint_chars_digits (d : Decimal.uint) :
  Forall (fun c => Py.is_digit c = true)
         (list_ascii_of_string (NilEmpty.string_of_uint d)).
Proof. induction d; cbn; constructor; (reflexivity || assumption). Qed.

Lemma uint_chars_value_acc (d : Decimal.uint) (acc : positive) :
  fold_left (fun a c => if Py.is_digit c then 10 * a + (Py.code c - 48) else a)
            (list_ascii_of_string (NilEmpty.string_of_uint d)) (Z.pos acc)
  = Z.pos (Pos.of_uint_acc d acc).
Proof.
  revert acc; induction d; intros acc; cbn [NilEmpty.string_of_uint
    list_ascii_of_string fold_left Pos.of_uint_acc]; [reflexivity|..];
  match goal with
  | |- fold_left _ _ ?a = Z.pos (Pos.of_uint_acc _ ?p) =>
      replace a with (Z.pos p) by (vm_compute Py.is_digit; cbv iota;
                                   vm_compute (Py.code _); lia)
  end; apply IHd.
Qed.

Lemma uint_chars_value (d : Decimal.uint) :
  Py.digits_value (list_ascii_of_string (NilEmpty.string_of_uint d))
  = Z.of_uint d.
Proof.
  unfold Py.digits_value, Z.of_uint.
  induction d; cbn [NilEmpty.string_of_uint list_ascii_of_string fold_left
                    Pos.of_uint]; [reflexivity | exact IHd |..];
  match goal with
  | |- fold_left _ _ ?a = Z.of_N (N.pos (Pos.of_uint_acc _ ?p)) =>
      replace a with (Z.pos p) by (vm_compute; reflexivity)
  end; apply uint_chars_value_acc.
Qed.

Lemma skip_space_all (ws rest : list ascii) :
  Forall (fun c => Py.isspace_c c = true) ws ->
  Py.skip_space (ws ++ rest) = Py.skip_space rest.
Proof.
  induction 1 as [|c ws Hc _ IH]; [reflexivity|].
  cbn [app Py.skip_space]. now rewrite Hc.
Qed.

Lemma skip_space_none (ws : list ascii) :
  Forall (fun c => Py.isspace_c c = true) ws -> Py.skip_space ws = [].
Proof.
  intros H. rewrite <- (app_nil_r ws), (skip_space_all ws [] H). reflexivity.
Qed.

Lemma span_digits_run (run ws : list ascii) :
  Forall (fun c => Py.is_digit c = true) run ->
  Forall (fun c => Py.isspace_c c = true) ws ->
  Py.span_digits (run ++ ws) = (run, ws).
Proof.
  intros Hrun Hws. induction Hrun as [|c run Hc _ IH].
  - destruct Hws as [|c ws Hc Hws]; [reflexivity|].
    cbn [app Py.span_digits]. now rewrite (space_not_digit c Hc).
  - cbn [app Py.span_digits]. rewrite Hc, IH. reflexivity.
Qed.

Lemma well_grouped_digits (run : list ascii) (prev : bool) :
  Forall (fun c => Py.is_digit c = true) run ->
  run <> [] -> Py.well_grouped prev run = true.
Proof.
  intros Hrun Hne.
  assert (Hfalse : forall l, Forall (fun c => Py.is_digit c = true) l ->
                             Py.well_grouped false l = true).
  { induction 1 as [|c l Hc _ IH]; [reflexivity|].
    cbn [Py.well_grouped]. now rewrite (digit_not_underscore c Hc). }
  destruct Hrun as [|c run Hc Hrun]; [contradiction|].
  cbn [Py.well_grouped]. rewrite (digit_not_underscore c Hc). now apply Hfalse.
Qed.

Lemma normalise_ascii (l : list ascii) :
  Forall (fun c => (Py.code c <? 128) = true) l -> Py.normalise l = l.
Proof.
  intros H. unfold Py.normalise.
  replace (forallb (fun c => Py.code c <? 128) l) with true; [reflexivity|].
  symmetry. apply forallb_forall. now apply Forall_forall.
Qed.

(** The text of a number without its sign: digits, at least one, worth
    the number. *)
Lemma fmt_uint_digits (d : Decimal.uint) :
  let run := list_ascii_of_string (NilZero.string_of_uint d) in
  Forall (fun c => Py.is_digit c = true) run /\ run <> [] /\
  Py.digits_value run = Z.of_uint d.
Proof.
  destruct d; cbn [NilZero.string_of_uint];
    try (split; [apply uint_chars_digits |
                 split; [discriminate | apply uint_chars_value]]).
  cbv zeta. split; [repeat constructor | split; [discriminate | reflexivity]].
Qed.

(** [int] reads a run of digits between blanks, with or without a minus
    sign before it. *)
Lemma count_digits_run (run : list ascii) :
  Forall (fun c => Py.is_digit c = true) run ->
  Py.count_digits run = Z.of_nat (List.length run).
Proof.
  intros Hrun. unfold Py.count_digits. f_equal. f_equal.
  induction Hrun as [|c run Hc _ IH]; [reflexivity|].
  cbn [filter]. now rewrite Hc, IH.
Qed.

Lemma parse_int_run (pre run post : list ascii) (negative : bool) :
  Forall (fun c => Py.isspace_c c = true) pre ->
  Forall (fun c => Py.isspace_c c = true) post ->
  Forall (fun c => Py.is_digit c = true) run -> run <> [] ->
  Z.of_nat (List.length run) <= Py.max_str_digits ->
  Py.parse_int (pre ++ (if negative then ["-"%char] else []) ++ run ++ post)
  = Some (if negative then - Py.digits_value run else Py.digits_value run).
Proof.
  intros Hpre Hpost Hrun Hne Hmax.
  assert (Hcount : (Py.count_digits run <=? Py.max_str_digits) = true).
  { rewrite (count_digits_run run Hrun). now apply Z.leb_le. }
  unfold Py.parse_int.
  rewrite normalise_ascii.
  2:{ repeat (apply Forall_app; split).
      - eapply Forall_impl; [apply space_is_ascii | exact Hpre].
      - destruct negative; repeat constructor.
      - eapply Forall_impl; [apply digit_is_ascii | exact Hrun].
      - eapply Forall_impl; [apply space_is_ascii | exact Hpost]. }
  rewrite (skip_space_all pre _ Hpre).
  destruct run as [|c run]; [contradiction|].
  pose proof (Forall_inv Hrun) as Hc.
  assert (Hnosp : Py.isspace_c c = false) by now apply digit_not_space.
  destruct negative; cbn [app Py.skip_space].
  - change (Py.isspace_c "-") with false. cbv iota.
    change (c :: run ++ post)%list with ((c :: run) ++ post)%list.
    rewrite (span_digits_run (c :: run) post Hrun Hpost).
    rewrite (well_grouped_digits (c :: run) true Hrun Hne), Hcount.
    now rewrite (skip_space_none post Hpost).
  - rewrite Hnosp.
    change (c :: run ++ post)%list with ((c :: run) ++ post)%list.
    destruct c as [[] [] [] [] [] [] [] []]; try discriminate Hc;
      (rewrite (span_digits_run _ post Hrun Hpost);
       rewrite (well_grouped_digits _ true Hrun Hne), Hcount;
       now rewrite (skip_space_none post Hpost)).
Qed.

Lemma chars_length (s : string) :
  List.length (list_ascii_of_string s) = String.length s.
Proof. induction s as [|c s IH]; [reflexivity | cbn; now rewrite IH]. Qed.

(** [int] reads back the decimal text of a number, between blanks or
    not, as long as the text is within the bound on the digits. *)
Lemma int_of_fmt_d (n : Z) (pre post : string) :
  Forall (fun c => Py.isspace_c c = true) (list_ascii_of_string pre) ->
  Forall (fun c => Py.isspace_c c = true) (list_ascii_of_string post) ->
  Z.of_nat (String.length (Py.fmt_d n)) <= Py.max_str_digits ->
  Py.int_of_str (pre ++ Py.fmt_d n ++ post) = Some n.
Proof.
  intros Hpre Hpost. unfold Py.int_of_str, Py.fmt_d.
  rewrite !chars_app. rewrite <- (DecimalZ.of_to n) at 3.
  destruct (Z.to_int n) as [d|d]; cbn [NilZero.string_of_int Z.of_int];
    destruct (fmt_uint_digits d) as (Hrun & Hne & Hval); rewrite <- Hval;
    intros Hmax.
  - apply (parse_int_run _ _ _ false Hpre Hpost Hrun Hne).
    now rewrite chars_length.
  - cbn [list_ascii_of_string].
    apply (parse_int_run _ _ _ true Hpre Hpost Hrun Hne).
    rewrite chars_length. cbn [String.length] in Hmax. lia.
Qed.

Lemma contains_char_none (sep : ascii) (s : string) :
  Forall (fun c => Ascii.eqb c sep = false) (list_ascii_of_string s) ->
  Py.contains (String sep EmptyString) s = false.
Proof.
  induction s as [|c s IH]; intros H; [reflexivity|].
  cbn [list_ascii_of_string] in H. inversion H as [|c' l Hc Hl]; subst.
  rewrite contains_char_cons, Hc. now apply IH.
Qed.

Lemma fmt_d_no_colon (n : Z) :
  Forall (fun c => Ascii.eqb c ":" = false) (list_ascii_of_string (Py.fmt_d n)).
Proof.
  assert (Hdigit : forall c, Py.is_digit c = true -> Ascii.eqb c ":" = false).
  { intros c Hc. destruct (Ascii.eqb_spec c ":") as [->|]; [discriminate Hc | reflexivity]. }
  unfold Py.fmt_d.
  destruct (Z.to_int n) as [d|d]; cbn [NilZero.string_of_int list_ascii_of_string];
    destruct (fmt_uint_digits d) as (Hrun & _ & _).
  - eapply Forall_impl; [exact Hdigit | exact Hrun].
  - constructor; [reflexivity|]. eapply Forall_impl; [exact Hdigit | exact Hrun].
Qed.

Lemma space_no_colon (post : string) :
  Forall (fun c => Py.isspace_c c = true) (list_ascii_of_string post) ->
  Forall (fun c => Ascii.eqb c ":" = false) (list_ascii_of_string post).
Proof.
  apply Forall_impl. intros c Hc.
  destruct (Ascii.eqb_spec c ":") as [->|]; [discriminate Hc | reflexivity].
Qed.

Section ReplyFacts.

Context {A : Ansi}.

Lemma handle_data_ordinal_text (now n : Z) (post : string) (w : World) :
  Forall (fun c => Py.isspace_c c = true) (list_ascii_of_string post) ->
  Z.of_nat (String.length (Py.fmt_d n)) <= Py.max_str_digits ->
  let data := "PONG:" ++ Py.fmt_d n ++ post in
  fst (handle_data now data w) = Ok false /\
  pod (snd (handle_data now data w))
  = mkPod (sock (pod w)) (addr (pod w)) now (recieved (pod w) + 1)
          (Some (mkPodState n)).
Proof.
  intros Hpost Hmax data.
  assert (Hpong : Py.contains "PONG" data = true) by reflexivity.
  assert (Htok : nth_error (Py.split ":" data) 1 = Some (Py.fmt_d n ++ post)).
  { apply (split_second_field ":" "PONG" (Py.fmt_d n ++ post) "" eq_refl).
    apply contains_char_none. rewrite chars_app. apply Forall_app. split.
    - apply fmt_d_no_colon.
    - now apply space_no_colon. }
  assert (Hint : Py.int_of_str (Py.fmt_d n ++ post) = Some n).
  { apply (int_of_fmt_d n "" post); [constructor | exact Hpost | exact Hmax]. }
  pose proof (handle_data_pong_state now data _ n w Hpong Htok Hint) as H.
  cbv zeta in H.
  destruct (match state (pod w) with
            | None => true
            | Some known => negb (n =? _state known)
            end).
  - destruct H as (prompt & track & _ & H). rewrite H. split; reflexivity.
  - rewrite H. split; reflexivity.
Qed.

(** Whatever becomes of a reply, once "PONG" is seen in it the reply is
    counted: the socket is the same, [last_ping] is now and [recieved]
    one more. *)
Lemma handle_data_counts_reply (now : Z) (data : string) (w : World) :
  Py.contains "PONG" data = true ->
  sock (pod (snd (handle_data now data w))) = sock (pod w) /\
  last_ping (pod (snd (handle_data now data w))) = now /\
  recieved (pod (snd (handle_data now data w))) = recieved (pod w) + 1.
Proof.
  intros Hpong.
  pose proof (handle_data_pong now data w Hpong) as H. cbv zeta in H.
  destruct (nth_error (Py.split ":" data) 1) as [token|] eqn:Htok;
    [|rewrite H; repeat split].
  destruct (Py.int_of_str token) as [n|] eqn:Hint; [|rewrite H; repeat split].
  clear H.
  pose proof (handle_data_pong_state now data token n w Hpong Htok Hint) as H.
  cbv zeta in H.
  destruct (match state (pod w) with
            | None => true
            | Some known => negb (n =? _state known)
            end).
  - destruct H as (prompt & track & _ & H). rewrite H. repeat split.
  - rewrite H. repeat split.
Qed.

(** X5.  A reply "PONG:" followed by the decimal text of an integer [n]
    of at most 4300 characters, and then by blanks or line ends or
    nothing, is accepted, whatever the session: [handle_data] returns
    [False], counts the reply, and the state known afterwards is the
    state of [n]. *)
Theorem handle_data_accepts_ordinal_text
  (now n : Z) (post : string) (w : World) :
  Forall (fun c => Py.isspace_c c = true) (list_ascii_of_string post) ->
  Z.of_nat (String.length (Py.fmt_d n)) <= Py.max_str_digits ->
  let data := "PONG:" ++ Py.fmt_d n ++ post in
  fst (handle_data now data w) = Ok false /\
  pod (snd (handle_data now data w))
  = mkPod (sock (pod w)) (addr (pod w)) now (recieved (pod w) + 1)
          (Some (mkPodState n)).
Proof. apply handle_data_ordinal_text. Qed.

End ReplyFacts.

Lemma handle_data_accepts_ordinal_text_example :
  state (pod (snd (handle_data (A:=Sgr.ansi) 5
                     ("PONG:" ++ Py.fmt_d 12 ++ Py.chr 10) connected_world)))
  = Some (mkPodState 12).
Proof.
  destruct (handle_data_accepts_ordinal_text (A:=Sgr.ansi) 5 12 (Py.chr 10)
              connected_world ltac:(repeat constructor)
              ltac:(vm_compute; discriminate)) as [_ Hpod].
  now rewrite Hpod.
Defined.

(** ** The prompt *)

Lemma repeat_nat_length (c : ascii) (k : nat) :
  String.length (Py.repeat_nat (String c EmptyString) k) = k.
Proof. induction k as [|k IH]; [reflexivity | cbn; now rewrite IH]. Qed.

Lemma length_append (a b : string) :
  String.length (a ++ b) = (String.length a + String.length b)%nat.
Proof. induction a as [|c a IH]; [reflexivity | cbn; now rewrite IH]. Qed.

Lemma progress_run (w : World) :
  progress w =
  let track := (PROMPT_TRACK w + 1) mod 5 in
  (Ok (Py.mul "." track ++ Py.mul " " (4 - track)),
   mkWorld (pod w) track (LAST_PROMPT w) (open_fds w) (trace w)).
Proof. reflexivity. Qed.

(** X6.  [progress()] leaves [PROMPT_TRACK] between 0 and 4 wherever it
    started, returns that many dots filled up with blanks to 4
    characters, touches nothing else, and after five more calls the
    counter is where it was. *)
Theorem progress_walks_in_place (w : World) :
  let after := snd (progress w) in
  let five := Nat.iter 5 (fun v => snd (progress v)) after in
  0 <= PROMPT_TRACK after <= 4 /\
  fst (progress w)
  = Ok (Py.mul "." (PROMPT_TRACK after) ++ Py.mul " " (4 - PROMPT_TRACK after)) /\
  (forall walker, fst (progress w) = Ok walker -> String.length walker = 4%nat) /\
  pod after = pod w /\ LAST_PROMPT after = LAST_PROMPT w /\
  trace after = trace w /\
  PROMPT_TRACK five = PROMPT_TRACK after.
Proof.
  cbv zeta. rewrite progress_run. cbv zeta. cbn [fst snd PROMPT_TRACK pod
    LAST_PROMPT trace].
  pose proof (Z.mod_pos_bound (PROMPT_TRACK w + 1) 5 ltac:(lia)) as Hrange.
  set (track := (PROMPT_TRACK w + 1) mod 5) in *.
  refine (conj _ (conj eq_refl (conj _ (conj eq_refl (conj eq_refl
            (conj eq_refl _)))))).
  - lia.
  - intros walker Hw.
    assert (Hw' : Py.mul "." track ++ Py.mul " " (4 - track) = walker)
      by congruence.
    rewrite <- Hw', length_append. unfold Py.mul.
    rewrite !repeat_nat_length. lia.
  - unfold Nat.iter. cbn [nat_rect]. rewrite !progress_run. cbv zeta.
    cbn [snd PROMPT_TRACK].
    assert (Hcase : track = 0 \/ track = 1 \/ track = 2 \/ track = 3 \/ track = 4)
      by lia.
    destruct Hcase as [->|[->|[->|[->| ->]]]]; reflexivity.
Qed.

Lemma rstrip_blanks (k : nat) : Py.rstrip (Py.repeat_nat " " k) = "".
Proof. induction k as [|k IH]; [reflexivity | cbn; now rewrite IH]. Qed.

(** Blanks added at the end of a line do not survive [rstrip]. *)
Lemma rstrip_padding (s : string) (k : Z) :
  Py.rstrip (s ++ Py.mul " " k) = Py.rstrip s.
Proof.
  unfold Py.mul. induction s as [|c s IH].
  - cbn [append]. apply rstrip_blanks.
  - cbn [append Py.rstrip]. now rewrite IH.
Qed.

Section PromptFacts.

Context {A : Ansi}.

Lemma rstrip_padded (last line : string) :
  Py.rstrip (padded last line) = Py.rstrip line.
Proof.
  unfold padded.
  destruct (Py.len (strip last) >? Py.len (strip line));
    [apply rstrip_padding | reflexivity].
Qed.

(** X7.  With a state known, drawing the prompt a second time with the
    same [extra] changes nothing any more: the world after the first
    draw is the world after the second, [LAST_PROMPT] is the line without
    its trailing white space, and every further draw returns the same
    text.  When the line does not end in white space, that text is the
    line itself, with no padding. *)
Theorem make_prompt_redraw_is_stable (extra : string) (w : World) (st : PodState) :
  state (pod w) = Some st ->
  let details :=
    (fst (addr (pod w)) ++ ":" ++ Py.fmt_d (snd (addr (pod w))))
      ++ " " ++ short st in
  let line :=
    make_bold ("Pod(" ++ (if is_fault st then make_red details
                          else make_green details) ++ ")" ++ extra) in
  let w1 := snd (make_prompt extra w) in
  LAST_PROMPT w1 = Py.rstrip line /\
  make_prompt extra w1 = (Ok (padded (Py.rstrip line) line), w1) /\
  (Py.rstrip line = line -> make_prompt extra w1 = (Ok line, w1)).
Proof.
  intros Hst details line w1.
  assert (Hw1 : w1 = mkWorld (pod w) (PROMPT_TRACK w) (Py.rstrip line)
                             (open_fds w) (trace w)).
  { unfold w1. rewrite (make_prompt_known extra w st Hst). cbn [snd].
    fold details. fold line. now rewrite rstrip_padded. }
  assert (Hagain : make_prompt extra w1 = (Ok (padded (Py.rstrip line) line), w1)).
  { rewrite Hw1.
    rewrite (make_prompt_known extra
               (mkWorld (pod w) (PROMPT_TRACK w) (Py.rstrip line) (open_fds w)
                        (trace w)) st Hst).
    cbn [pod PROMPT_TRACK LAST_PROMPT open_fds trace addr fst snd].
    fold details. fold line. now rewrite rstrip_padded. }
  refine (conj _ (conj Hagain _)).
  - now rewrite Hw1.
  - intros Hline. rewrite Hagain, Hline. unfold padded.
    now rewrite Z.gtb_ltb, Z.ltb_irrefl.
Qed.

End PromptFacts.

Lemma make_prompt_redraw_is_stable_example :
  let w1 := snd (make_prompt (A:=Sgr.ansi) "> " armed_world) in
  make_prompt (A:=Sgr.ansi) "> " w1
  = (Ok (Sgr.wrap "1" ("Pod(" ++ Sgr.wrap "32" ":1 ARMD" ++ ")> ")), w1).
Proof.
  destruct (make_prompt_redraw_is_stable (A:=Sgr.ansi) "> " armed_world
              (mkPodState 6) eq_refl) as (_ & _ & Hline).
  exact (Hline eq_refl).
Defined.

(** ** The session *)

Lemma recv_run (outcome : Result string) (w : World) :
  recv outcome w =
  if is_connected_pod (pod w)
  then match outcome with
       | Ok text => (Ok (Some text), w)
       | Raise e =>
           (Ok None,
            snd (close (mkWorld (pod w) (PROMPT_TRACK w) (LAST_PROMPT w)
                                (open_fds w) (trace w ++ [LogError e]))))
       end
  else (Ok None, w).
Proof.
  unfold recv. unfold bind at 1. rewrite is_connected_run.
  destruct (is_connected_pod (pod w)); cbn [negb]; [|reflexivity].
  destruct outcome as [text|e]; [reflexivity|].
  unfold try_except, lift, bind, logging_error, emit, modify, ret.
  match goal with
  | |- context [close ?v] => rewrite (close_run v)
  end.
  cbn [pod sock]. now destruct (sock (pod w)).
Qed.

(** X8.  [recv] never raises.  On a session that is not connected it
    returns nothing and changes nothing.  On a connected session it
    returns the text read and changes nothing, or, when the read raises
    [e], logs [e], closes the session and returns nothing. *)
Theorem recv_never_raises (outcome : Result string) (w : World) :
  (exists data, fst (recv outcome w) = Ok data) /\
  (is_connected_pod (pod w) = false -> recv outcome w = (Ok None, w)) /\
  (forall text, is_connected_pod (pod w) = true -> outcome = Ok text ->
     recv outcome w = (Ok (Some text), w)) /\
  (forall s e, sock (pod w) = Some s -> 0 <= fileno s -> outcome = Raise e ->
     fst (recv outcome w) = Ok None /\
     sock (pod (snd (recv outcome w))) = None /\
     trace (snd (recv outcome w))
     = (trace w ++ [LogError e; SockClose (fileno s)])%list).
Proof.
  rewrite recv_run. refine (conj _ (conj _ (conj _ _))).
  - destruct (is_connected_pod (pod w)); [|eexists; reflexivity].
    destruct outcome; eexists; reflexivity.
  - intros Hdis. now rewrite Hdis.
  - intros text Hconn Hout. now rewrite Hconn, Hout.
  - intros s e Hs Hfd Hout.
    assert (Hconn : is_connected_pod (pod w) = true).
    { unfold is_connected_pod. rewrite Hs. now apply Z.leb_le. }
    rewrite Hconn, Hout, close_run. cbn [pod sock]. rewrite Hs.
    cbn [fst snd pod sock trace]. rewrite <- app_assoc.
    refine (conj eq_refl (conj eq_refl eq_refl)).
Qed.

Lemma recv_never_raises_example :
  recv (Raise (OSError "Connection reset by peer")) connected_world
  = (Ok None,
     mkWorld (mkPod None ("127.0.0.1", 7779) 0 0 None) 0 "" []
             [LogError (OSError "Connection reset by peer"); SockClose 3]) /\
  recv (Ok "hello") connected_world = (Ok (Some "hello"), connected_world).
Proof.
  destruct (recv_never_raises (Ok "hello") connected_world)
    as (_ & _ & Hread & _).
  exact (conj eq_refl (Hread "hello" eq_refl eq_refl)).
Defined.

(** X9.  [connect] returns normally exactly when the connection is made
    and neither [setsockopt] raises.  It then holds the new socket and is
    connected, has [recieved] back at 0 and [last_ping] at now, and keeps
    everything else: the state known before the reconnect is still known,
    nothing is written, and no descriptor is closed, not even the one of
    a socket that was still held. *)
Theorem connect_success_resets_counters
  (env : connect_env) (now : Z) (w : World) :
  (fst (connect env now w) = Ok tt <->
   (exists fd, connection env = Ok fd) /\
   reuseaddr_failure env = None /\ reuseport_failure env = None) /\
  (forall fd, connection env = Ok fd ->
     reuseaddr_failure env = None -> reuseport_failure env = None ->
     connect env now w =
     (Ok tt,
      mkWorld (mkPod (Some (mkSocket (Z.of_nat fd))) (addr (pod w)) now 0
                     (state (pod w)))
              (PROMPT_TRACK w) (LAST_PROMPT w)
              (Z.of_nat fd :: open_fds w) (trace w)) /\
     is_connected_pod (pod (snd (connect env now w))) = true).
Proof.
  rewrite connect_run. split.
  - destruct (connection env) as [fd|e].
    + cbv zeta.
      destruct (reuseaddr_failure env) as [e1|];
        [|destruct (reuseport_failure env) as [e2|]].
      * destruct (close _). split; [discriminate|]. intros (_ & H & _); discriminate.
      * destruct (close _). split; [discriminate|]. intros (_ & _ & H); discriminate.
      * split; [eauto | reflexivity].
    + destruct (close w). split; [discriminate|].
      intros ([fd H] & _); discriminate.
  - intros fd Hc H1 H2. rewrite Hc, H1, H2. cbv zeta. split; [reflexivity|].
    cbn [snd pod]. unfold is_connected_pod. cbn [sock fileno].
    apply Z.leb_le. lia.
Qed.

Lemma connect_success_resets_counters_example :
  connect (mkConnectEnv (Ok 4%nat) None None) 7 armed_world
  = (Ok tt,
     mkWorld (mkPod (Some (mkSocket 4)) ("", 1) 7 0 (Some (mkPodState 6)))
             0 "" [4] []).
Proof.
  destruct (connect_success_resets_counters (mkConnectEnv (Ok 4%nat) None None)
              7 armed_world) as [_ Hrun].
  exact (proj1 (Hrun 4%nat eq_refl eq_refl eq_refl)).
Defined.

Section HeartbeatFacts.

Context {A : Ansi}.

(** A [ping] on a connected session whose probe is written. *)
Lemma ping_written (now : Z) (w : World) (s : socket) :
  sock (pod w) = Some s -> 0 <= fileno s ->
  ping None now w =
  if (now - last_ping (pod w) >? PING_TIMEOUT) && (recieved (pod w) >? 0)
  then (Ok tt,
        mkWorld (mkPod None (addr (pod w)) (last_ping (pod w)) (recieved (pod w))
                       (state (pod w)))
                (PROMPT_TRACK w) (LAST_PROMPT w)
                (remove Z.eq_dec (fileno s) (open_fds w))
                (trace w ++
                 [SockSend (fileno s) "ping";
                  Stdout (make_bold (make_red "PING TIMEOUT!") ++ Py.chr 10);
                  SockClose (fileno s)]))
  else (Ok tt,
        mkWorld (pod w) (PROMPT_TRACK w) (LAST_PROMPT w) (open_fds w)
                (trace w ++ [SockSend (fileno s) "ping"])).
Proof.
  intros Hs Hfd.
  assert (Hconn : is_connected_pod (pod w) = true).
  { unfold is_connected_pod. rewrite Hs. now apply Z.leb_le. }
  rewrite ping_run. cbv zeta. rewrite send_run, Hconn, Hs.
  cbn [snd pod PROMPT_TRACK LAST_PROMPT open_fds trace]. rewrite Hconn.
  cbn [andb].
  destruct ((now - last_ping (pod w) >? PING_TIMEOUT) && (recieved (pod w) >? 0));
    [|reflexivity].
  rewrite close_run. cbn [pod sock]. rewrite Hs.
  cbn [pod sock addr last_ping recieved state PROMPT_TRACK LAST_PROMPT
       open_fds trace].
  now rewrite <- !app_assoc.
Qed.

Lemma pings_before_first_reply (times : list Z) (w : World) (s : socket) :
  sock (pod w) = Some s -> 0 <= fileno s -> recieved (pod w) = 0 ->
  fold_left (fun v t => snd (ping None t v)) times w
  = mkWorld (pod w) (PROMPT_TRACK w) (LAST_PROMPT w) (open_fds w)
            (trace w ++ map (fun _ => SockSend (fileno s) "ping") times).
Proof.
  revert w; induction times as [|t times IH]; intros w Hs Hfd Hcount.
  - cbn [fold_left map]. rewrite app_nil_r. now destruct w.
  - cbn [fold_left map]. rewrite (ping_written t w s Hs Hfd), Hcount.
    rewrite andb_false_r. cbn [snd].
    match goal with
    | |- fold_left _ times ?v = _ => rewrite (IH v Hs Hfd Hcount)
    end.
    cbn [pod PROMPT_TRACK LAST_PROMPT open_fds trace].
    now rewrite <- app_assoc.
Qed.

(** X10.  A peer that never replies is never timed out.  After a
    [connect()] that succeeds, any number of [ping]s whose probes are
    written, however late, leave the session as it is, connected: each
    writes its probe and nothing else happens. *)
Theorem silent_peer_is_never_timed_out
  (env : connect_env) (now : Z) (times : list Z) (w : World) (fd : nat) :
  connection env = Ok fd ->
  reuseaddr_failure env = None -> reuseport_failure env = None ->
  let w1 := snd (connect env now w) in
  let w2 := fold_left (fun v t => snd (ping None t v)) times w1 in
  pod w2 = pod w1 /\
  is_connected_pod (pod w2) = true /\
  trace w2 = (trace w ++ map (fun _ => SockSend (Z.of_nat fd) "ping") times)%list.
Proof.
  intros Hc H1 H2. cbv zeta.
  rewrite connect_run, Hc, H1, H2. cbv zeta. cbn [snd].
  match goal with
  | |- context [fold_left _ times ?v] =>
      rewrite (pings_before_first_reply times v (mkSocket (Z.of_nat fd))
                 eq_refl ltac:(cbn; lia) eq_refl)
  end.
  cbn [pod trace]. refine (conj eq_refl (conj _ eq_refl)).
  unfold is_connected_pod. cbn [sock fileno]. apply Z.leb_le. lia.
Qed.

(** X11.  A reply puts the timeout off by one second.  After a reply
    accepted at time [t] on a connected session, a [ping] whose probe is
    written closes the session exactly when it comes more than one
    second after [t]. *)
Theorem reply_postpones_timeout
  (t now n : Z) (post : string) (w : World) (s : socket) :
  sock (pod w) = Some s -> 0 <= fileno s -> 0 <= recieved (pod w) ->
  Forall (fun c => Py.isspace_c c = true) (list_ascii_of_string post) ->
  let w1 := snd (handle_data t ("PONG:" ++ Py.fmt_d n ++ post) w) in
  sock (pod w1) = Some s /\
  (sock (pod (snd (ping None now w1))) = None <-> now - t > PING_TIMEOUT).
Proof.
  intros Hs Hfd Hcount Hpost w1.
  destruct (handle_data_counts_reply t ("PONG:" ++ Py.fmt_d n ++ post) w eq_refl)
    as (Hsock & Hlast & Hrec).
  fold w1 in Hsock, Hlast, Hrec.
  assert (Hs1 : sock (pod w1) = Some s) by now rewrite Hsock.
  split; [exact Hs1|].
  rewrite (ping_written now w1 s Hs1 Hfd), Hlast, Hrec.
  replace (recieved (pod w) + 1 >? 0) with true
    by (symmetry; rewrite Z.gtb_ltb; apply Z.ltb_lt; lia).
  rewrite andb_true_r.
  destruct (now - t >? PING_TIMEOUT) eqn:Hlate; cbn [snd pod sock];
    rewrite Z.gtb_ltb in Hlate.
  - apply Z.ltb_lt in Hlate. split; [lia | reflexivity].
  - apply Z.ltb_ge in Hlate. rewrite Hs1. split; [discriminate | lia].
Qed.

End HeartbeatFacts.

Lemma silent_peer_is_never_timed_out_example :
  trace (fold_left (fun v t => snd (ping (A:=Sgr.ansi) None t v))
                   [5000000; 9000000]
                   (snd (connect (mkConnectEnv (Ok 3%nat) None None) 0
                                 initial_world)))
  = [SockSend 3 "ping"; SockSend 3 "ping"].
Proof.
  exact (proj2 (proj2 (silent_peer_is_never_timed_out (A:=Sgr.ansi)
           (mkConnectEnv (Ok 3%nat) None None) 0 [5000000; 9000000]
           initial_world 3%nat eq_refl eq_refl eq_refl))).
Defined.

Lemma reply_postpones_timeout_example :
  sock (pod (snd (ping (A:=Sgr.ansi) None 1000005
                    (snd (handle_data (A:=Sgr.ansi) 5
                            ("PONG:" ++ Py.fmt_d 6 ++ Py.chr 10)
                            connected_world)))))
  <> None.
Proof.
  destruct (reply_postpones_timeout (A:=Sgr.ansi) 5 1000005 6 (Py.chr 10)
              connected_world (mkSocket 3) eq_refl ltac:(cbn; lia)
              ltac:(cbn; lia) ltac:(repeat constructor)) as [_ [Hclosed _]].
  intros Hnone. apply Hclosed in Hnone. vm_compute in Hnone. discriminate Hnone.
Defined.

(** ** The loop *)

Section LoopFacts.

Context {A : Ansi}.
Variable exn_str : exn -> string.

Lemma connecting_connected (attempts : list attempt) (w : World) :
  is_connected_pod (pod w) = true ->
  connecting exn_str attempts w = (Ok true, w).
Proof.
  intros Hconn. destruct attempts; cbn [connecting]; unfold bind;
    rewrite is_connected_run, Hconn; reflexivity.
Qed.

(** One turn of the first loop on a session that is not connected. *)
Lemma connecting_attempt (a : attempt) (rest : list attempt) (w : World) :
  is_connected_pod (pod w) = false ->
  connecting exn_str (a :: rest) w =
  match connect (network a) (clock a) w with
  | (Ok _, w1) => connecting exn_str rest w1
  | (Raise e, w1) =>
      match make_prompt (" ! " ++ exn_str e ++ " ")
              (mkWorld (pod w1) (PROMPT_TRACK w1) (LAST_PROMPT w1) (open_fds w1)
                       (trace w1 ++ [Stdout (Py.chr 13)]))
      with
      | (Ok prompt, w2) =>
          connecting exn_str rest
            (mkWorld (pod w2) (PROMPT_TRACK w2) (LAST_PROMPT w2) (open_fds w2)
                     (trace w2 ++ [Stdout prompt]))
      | (Raise e', w2) => (Raise e', w2)
      end
  end.
Proof.
  intros Hdis. cbn [connecting]. unfold bind at 1.
  rewrite is_connected_run, Hdis. unfold bind at 1. unfold try_except.
  destruct (connect (network a) (clock a) w) as [[u|e] w1]; [reflexivity|].
  run_py. destruct (make_prompt _ _) as [[prompt|e'] w2]; reflexivity.
Qed.

(** What one [connect()] of the loop leaves behind. *)
Lemma connect_outcome (env : connect_env) (now : Z) (w : World) :
  match first_failure env with
  | None =>
      exists w1, connect env now w = (Ok tt, w1) /\
                 is_connected_pod (pod w1) = true /\
                 addr (pod w1) = addr (pod w) /\
                 state (pod w1) = state (pod w) /\ trace w1 = trace w
  | Some e =>
      exists w1 closed,
        connect env now w = (Raise e, w1) /\ sock (pod w1) = None /\
        addr (pod w1) = addr (pod w) /\ state (pod w1) = state (pod w) /\
        trace w1 = (trace w ++ closed)%list /\
        (closed = [] \/ exists fd, closed = [SockClose fd])
  end.
Proof.
  assert (Hclose : forall v,
            exists closed,
              sock (pod (snd (close v))) = None /\
              addr (pod (snd (close v))) = addr (pod v) /\
              state (pod (snd (close v))) = state (pod v) /\
              trace (snd (close v)) = (trace v ++ closed)%list /\
              (closed = [] \/ exists fd, closed = [SockClose fd])).
  { intros v. rewrite close_run. destruct (sock (pod v)) as [s|] eqn:Hs.
    - exists [SockClose (fileno s)]. cbn [snd pod sock addr state trace].
      repeat split. right. eauto.
    - exists []. cbn [snd]. rewrite app_nil_r. repeat split; auto. }
  rewrite connect_run. unfold first_failure.
  destruct (connection env) as [fd|e].
  - cbv zeta.
    destruct (reuseaddr_failure env) as [e1|];
      [|destruct (reuseport_failure env) as [e2|]].
    + match goal with
      | |- context [close ?v] =>
          destruct (Hclose v) as (closed & H1 & H2 & H3 & H4 & H5);
            destruct (close v) as [r v1]
      end.
      cbn [snd pod addr state trace] in *. exists v1, closed. auto 10.
    + match goal with
      | |- context [close ?v] =>
          destruct (Hclose v) as (closed & H1 & H2 & H3 & H4 & H5);
            destruct (close v) as [r v1]
      end.
      cbn [snd pod addr state trace] in *. exists v1, closed. auto 10.
    + eexists. split; [reflexivity|].
      cbn [pod sock addr state trace is_connected_pod fileno].
      repeat split. apply Z.leb_le. lia.
  - destruct (Hclose w) as (closed & H1 & H2 & H3 & H4 & H5).
    destruct (close w) as [r v1]. cbn [snd] in *. exists v1, closed. auto 10.
Qed.

(** X12.  The first loop never raises, whatever the network does, and
    it is left only connected.  It tries [connect()] until one raises
    nothing; each one that raises [e] closes at most one socket and then
    writes a carriage return and a prompt made with [" ! e "], and
    nothing else is written or sent: the socket is never written to.
    Neither the address nor the state known changes. *)
Theorem connecting_never_raises (attempts : list attempt) (w : World) :
  let raised := if is_connected_pod (pod w) then [] else refusals attempts in
  let connected :=
    is_connected_pod (pod w)
    || Nat.ltb (List.length raised) (List.length attempts) in
  exists w' (drawn : list (list event * string)),
    connecting exn_str attempts w = (Ok connected, w') /\
    is_connected_pod (pod w') = connected /\
    addr (pod w') = addr (pod w) /\ state (pod w') = state (pod w) /\
    trace w' =
    (trace w ++ flat_map (fun d => fst d ++ [Stdout (Py.chr 13); Stdout (snd d)])
                         drawn)%list /\
    Forall2 (fun e d =>
               (fst d = [] \/ exists fd, fst d = [SockClose fd]) /\
               exists v, addr (pod v) = addr (pod w) /\
                         state (pod v) = state (pod w) /\
                         fst (make_prompt (" ! " ++ exn_str e ++ " ") v)
                         = Ok (snd d))
            raised drawn.
Proof.
  cbv zeta. revert w; induction attempts as [|a rest IH]; intros w.
  - destruct (is_connected_pod (pod w)) eqn:Hconn.
    + exists w, []. rewrite (connecting_connected [] w Hconn).
      cbn [flat_map orb]. rewrite app_nil_r. repeat split; auto.
    + exists w, []. cbn [connecting]. unfold bind.
      rewrite is_connected_run, Hconn.
      cbn [flat_map orb refusals List.length Nat.ltb Nat.leb].
      rewrite app_nil_r. repeat split; auto.
  - destruct (is_connected_pod (pod w)) eqn:Hconn.
    + exists w, []. rewrite (connecting_connected _ w Hconn).
      cbn [flat_map orb]. rewrite app_nil_r. repeat split; auto.
    + rewrite (connecting_attempt a rest w Hconn). cbn [refusals orb].
      pose proof (connect_outcome (network a) (clock a) w) as Hout.
      destruct (first_failure (network a)) as [e|].
      * destruct Hout as (w1 & closed & Hrun & Hsock & Ha & Hs & Ht & Hshape).
        rewrite Hrun.
        match goal with
        | |- context [make_prompt ?x ?v0] =>
            destruct (make_prompt_frame x v0) as (prompt & track & Hp);
              pose proof (f_equal fst Hp) as Hprompt;
              assert (Hv : addr (pod v0) = addr (pod w) /\
                           state (pod v0) = state (pod w))
                by (split; assumption)
        end.
        rewrite Hp. cbn [pod PROMPT_TRACK LAST_PROMPT open_fds trace fst] in *.
        match goal with
        | |- context [connecting exn_str rest ?v0] =>
            destruct (IH v0) as (w' & drawn & Hrest & Hc & Ha' & Hs' & Ht' & Hall);
              assert (Hdis : is_connected_pod (pod v0) = false)
                by (unfold is_connected_pod; cbn [pod]; now rewrite Hsock)
        end.
        rewrite Hdis in *. cbn [pod trace orb] in *.
        exists w', ((closed, prompt) :: drawn).
        rewrite Hrest.
        change (Nat.ltb (List.length (e :: refusals rest))
                        (List.length (a :: rest)))
          with (Nat.ltb (List.length (refusals rest)) (List.length rest)).
        refine (conj eq_refl (conj Hc (conj _ (conj _ (conj _ _))))).
        -- congruence.
        -- congruence.
        -- rewrite Ht', Ht. cbn [flat_map fst snd].
           rewrite <- !app_assoc. reflexivity.
        -- constructor.
           ++ cbn [fst snd]. split; [exact Hshape|].
              match type of Hprompt with
              | fst (make_prompt _ ?v0) = _ => exists v0
              end.
              cbn [pod]. split; [exact (proj1 Hv)|].
              split; [exact (proj2 Hv)|]. exact Hprompt.
           ++ eapply Forall2_impl; [|exact Hall].
              intros e' d (Hd & v & Hva & Hvs & Hvp). split; [exact Hd|].
              exists v. split; [congruence|]. split; [congruence|exact Hvp].
      * destruct Hout as (w1 & Hrun & Hc & Ha & Hs & Ht).
        rewrite Hrun, (connecting_connected rest w1 Hc).
        exists w1, []. cbn [flat_map List.length Nat.ltb Nat.leb].
        rewrite app_nil_r. repeat split; auto.
Qed.

End LoopFacts.

Section LoopStartFacts.

Context {A : Ansi}.
Variable exn_str : exn -> string.



End LoopStartFacts.


Section ServingFacts.

Context {A : Ansi}.

Lemma serving_disconnected (turns : list turn) (w : World) :
  is_connected_pod (pod w) = false -> serving turns w = (Ok Disconnected, w).
Proof.
  intros Hdis. destruct turns; cbn [serving]; unfold bind;
    rewrite is_connected_run, Hdis; reflexivity.
Qed.

(** One turn of the second loop on a connected session. *)
Lemma serving_turn (t : turn) (rest : list turn) (w : World) :
  is_connected_pod (pod w) = true ->
  serving (t :: rest) w =
  bind
    match from_socket t with
    | Some outcome =>
        bind (recv outcome)
             (fun data =>
                match data with
                | Some (String c text) =>
                    bind (handle_data (at_time t) (String c text))
                         (fun redraw =>
                            if redraw
                            then bind (make_prompt "> ") user_write
                            else ret tt)
                | _ => ret tt
                end)
    | None => ret tt
    end
    (fun _ =>
       match from_stdin t with
       | Some EOF => ret (Exit 0)
       | Some (Line cmd) =>
           bind (command (write_failure t) cmd) (fun _ => serving rest)
       | None => serving rest
       end) w.
Proof.
  intros Hconn. cbn [serving]. unfold bind at 1.
  rewrite is_connected_run, Hconn. reflexivity.
Qed.

(** X14.  Text from the socket that holds no "PONG" is written out as it
    came and the prompt is drawn again after it; the session is left as
    it is and the loop goes on. *)
Theorem serving_relays_telemetry
  (t : turn) (rest : list turn) (w : World) (text : string) :
  is_connected_pod (pod w) = true ->
  from_socket t = Some (Ok text) -> from_stdin t = None ->
  text <> "" -> Py.contains "PONG" text = false ->
  exists prompt track,
    fst (make_prompt "> "
           (mkWorld (pod w) (PROMPT_TRACK w) (LAST_PROMPT w) (open_fds w)
                    (trace w ++ [Stdout text]))) = Ok prompt /\
    serving (t :: rest) w =
    serving rest
      (mkWorld (pod w) track (Py.rstrip prompt) (open_fds w)
               (trace w ++ [Stdout text; Stdout prompt])).
Proof.
  intros Hconn Hsock Hin Hne Hpong.
  rewrite (serving_turn t rest w Hconn), Hsock, Hin.
  unfold bind at 1. unfold bind at 1. rewrite recv_run, Hconn.
  destruct text as [|c text]; [contradiction|].
  unfold bind at 1. rewrite (handle_data_other _ _ w Hpong).
  unfold bind at 1.
  match goal with
  | |- context [make_prompt "> " ?v] =>
      destruct (make_prompt_frame "> " v) as (prompt & track & Hp)
  end.
  exists prompt, track. rewrite Hp. split; [reflexivity|].
  unfold user_write, stdout_write, emit, modify.
  cbn [pod PROMPT_TRACK LAST_PROMPT open_fds trace].
  now rewrite <- app_assoc.
Qed.

(** X15.  When the read from the socket raises, the error is logged, the
    session is closed and the loop returns; a line typed in the same turn
    is not sent, and the turns that would follow do not happen. *)
Theorem serving_read_failure_ends_loop
  (t : turn) (rest : list turn) (w : World) (s : socket) (e : exn) :
  sock (pod w) = Some s -> 0 <= fileno s ->
  from_socket t = Some (Raise e) -> from_stdin t <> Some EOF ->
  serving (t :: rest) w =
  (Ok Disconnected,
   mkWorld (mkPod None (addr (pod w)) (last_ping (pod w)) (recieved (pod w))
                  (state (pod w)))
           (PROMPT_TRACK w) (LAST_PROMPT w)
           (remove Z.eq_dec (fileno s) (open_fds w))
           (trace w ++ [LogError e; SockClose (fileno s)])).
Proof.
  intros Hs Hfd Hsock Hin.
  assert (Hconn : is_connected_pod (pod w) = true).
  { unfold is_connected_pod. rewrite Hs. now apply Z.leb_le. }
  rewrite (serving_turn t rest w Hconn), Hsock.
  unfold bind at 1. unfold bind at 1. rewrite recv_run, Hconn, close_run.
  cbn [pod sock]. rewrite Hs. cbn [snd]. unfold ret at 1.
  cbn [pod PROMPT_TRACK LAST_PROMPT open_fds trace].
  rewrite <- app_assoc. cbn [app].
  destruct (from_stdin t) as [[cmd|]|]; [| congruence |].
  - unfold bind at 1, command. rewrite send_run.
    cbn [pod sock is_connected_pod]. now rewrite serving_disconnected.
  - now rewrite serving_disconnected.
Qed.

(** X16.  A line typed is sent with a line end after it and the loop
    goes on; the end of the input makes the loop call [sys.exit(0)]
    without sending anything, whatever turns would follow. *)
Theorem serving_typed_line
  (t : turn) (rest : list turn) (w : World) (s : socket) :
  sock (pod w) = Some s -> 0 <= fileno s ->
  from_socket t = None ->
  (forall cmd, from_stdin t = Some (Line cmd) -> write_failure t = None ->
     serving (t :: rest) w =
     serving rest
       (mkWorld (pod w) (PROMPT_TRACK w) (LAST_PROMPT w) (open_fds w)
                (trace w ++ [SockSend (fileno s) (cmd ++ Py.chr 10)]))) /\
  (from_stdin t = Some EOF -> serving (t :: rest) w = (Ok (Exit 0), w)).
Proof.
  intros Hs Hfd Hsock.
  assert (Hconn : is_connected_pod (pod w) = true).
  { unfold is_connected_pod. rewrite Hs. now apply Z.leb_le. }
  rewrite (serving_turn t rest w Hconn), Hsock. split.
  - intros cmd Hin Hwrite. rewrite Hin, Hwrite.
    unfold bind at 1. unfold ret at 1. unfold bind at 1, command.
    now rewrite send_run, Hconn, Hs.
  - intros Hin. rewrite Hin. reflexivity.
Qed.

(** X17.  Reads that give the empty text are passed over: a peer that
    has closed its end is not noticed by the loop, which goes on as long
    as such reads come, leaving the session connected and unchanged. *)
Theorem serving_ignores_empty_reads (turns : list turn) (w : World) :
  is_connected_pod (pod w) = true ->
  Forall (fun t => from_socket t = Some (Ok "") /\ from_stdin t = None) turns ->
  serving turns w = (Ok StillLooping, w).
Proof.
  intros Hconn Hturns. induction Hturns as [|t rest [Hsock Hin] _ IH].
  - cbn [serving]. unfold bind. now rewrite is_connected_run, Hconn.
  - rewrite (serving_turn t rest w Hconn), Hsock, Hin.
    unfold bind at 1. unfold bind at 1. rewrite recv_run, Hconn. exact IH.
Qed.

(** X18.  A reply that cannot be read ("PONG" with no second field, or
    with one that [int] rejects) makes the loop raise: the exception
    leaves [loop] with the reply counted and the session still
    connected, its socket open; the rest of the turn and the turns after
    it do not happen. *)
Theorem serving_malformed_reply_escapes
  (t : turn) (rest : list turn) (w : World) (text : string) :
  is_connected_pod (pod w) = true ->
  from_socket t = Some (Ok text) ->
  Py.contains "PONG" text = true ->
  (nth_error (Py.split ":" text) 1 = None \/
   exists token, nth_error (Py.split ":" text) 1 = Some token /\
                 Py.int_of_str token = None) ->
  exists e,
    serving (t :: rest) w =
    (Raise e,
     mkWorld (mkPod (sock (pod w)) (addr (pod w)) (at_time t)
                    (recieved (pod w) + 1) (state (pod w)))
             (PROMPT_TRACK w) (LAST_PROMPT w) (open_fds w) (trace w)) /\
    is_connected_pod (pod (snd (serving (t :: rest) w))) = true.
Proof.
  intros Hconn Hsock Hpong Hbad.
  assert (Hrun : exists e,
             serving (t :: rest) w =
             (Raise e,
              mkWorld (mkPod (sock (pod w)) (addr (pod w)) (at_time t)
                             (recieved (pod w) + 1) (state (pod w)))
                      (PROMPT_TRACK w) (LAST_PROMPT w) (open_fds w) (trace w))).
  { rewrite (serving_turn t rest w Hconn), Hsock.
    unfold bind at 1. unfold bind at 1. rewrite recv_run, Hconn.
    destruct text as [|c text]; [discriminate Hpong|].
    unfold bind at 1.
    pose proof (handle_data_pong (at_time t) (String c text) w Hpong) as H.
    cbv zeta in H. rewrite H. clear H.
    destruct Hbad as [Hnone|(token & Htok & Hint)].
    - rewrite Hnone. eexists. reflexivity.
    - rewrite Htok, Hint. eexists. reflexivity. }
  destruct Hrun as [e Hrun]. exists e. rewrite Hrun. split; [reflexivity|].
  exact Hconn.
Qed.

End ServingFacts.

Lemma serving_relays_telemetry_example :
  exists prompt track,
    fst (make_prompt (A:=Sgr.ansi) "> "
           (mkWorld (pod connected_world) 0 "" [3] [Stdout "speed 12"]))
    = Ok prompt /\
    serving (A:=Sgr.ansi) [mkTurn (Some (Ok "speed 12")) None None 5]
            connected_world
    = serving (A:=Sgr.ansi) []
        (mkWorld (pod connected_world) track (Py.rstrip prompt) [3]
                 [Stdout "speed 12"; Stdout prompt]).
Proof.
  apply (serving_relays_telemetry (A:=Sgr.ansi)
           (mkTurn (Some (Ok "speed 12")) None None 5) [] connected_world
           "speed 12" eq_refl eq_refl eq_refl ltac:(discriminate) eq_refl).
Defined.

Lemma serving_read_failure_ends_loop_example :
  serving (A:=Sgr.ansi)
    [mkTurn (Some (Raise (OSError "Connection reset by peer")))
            (Some (Line "status")) None 5;
     mkTurn None (Some (Line "again")) None 6]
    connected_world
  = (Ok Disconnected,
     mkWorld (mkPod None ("127.0.0.1", 7779) 0 0 None) 0 "" []
             [LogError (OSError "Connection reset by peer"); SockClose 3]).
Proof.
  apply (serving_read_failure_ends_loop (A:=Sgr.ansi)
           (mkTurn (Some (Raise (OSError "Connection reset by peer")))
                   (Some (Line "status")) None 5)
           [mkTurn None (Some (Line "again")) None 6] connected_world
           (mkSocket 3) (OSError "Connection reset by peer")
           eq_refl ltac:(cbn; lia) eq_refl ltac:(discriminate)).
Defined.

Lemma serving_typed_line_example :
  serving (A:=Sgr.ansi) [mkTurn None (Some (Line "status")) None 5]
          connected_world
  = serving (A:=Sgr.ansi) []
      (mkWorld (pod connected_world) 0 "" [3]
               [SockSend 3 ("status" ++ Py.chr 10)]) /\
  serving (A:=Sgr.ansi)
    [mkTurn None (Some EOF) None 5; mkTurn None (Some (Line "late")) None 6]
    connected_world
  = (Ok (Exit 0), connected_world).
Proof.
  split.
  - apply (proj1 (serving_typed_line (A:=Sgr.ansi)
                    (mkTurn None (Some (Line "status")) None 5) []
                    connected_world (mkSocket 3) eq_refl ltac:(cbn; lia) eq_refl)
                 "status" eq_refl eq_refl).
  - apply (proj2 (serving_typed_line (A:=Sgr.ansi)
                    (mkTurn None (Some EOF) None 5)
                    [mkTurn None (Some (Line "late")) None 6]
                    connected_world (mkSocket 3) eq_refl ltac:(cbn; lia) eq_refl)
                 eq_refl).
Defined.

Lemma serving_ignores_empty_reads_example :
  serving (A:=Sgr.ansi)
    [mkTurn (Some (Ok "")) None None 5; mkTurn (Some (Ok "")) None None 6]
    connected_world
  = (Ok StillLooping, connected_world).
Proof.
  apply (serving_ignores_empty_reads (A:=Sgr.ansi) _ connected_world eq_refl).
  repeat constructor.
Defined.

Lemma serving_malformed_reply_escapes_example :
  exists e,
    serving (A:=Sgr.ansi) [mkTurn (Some (Ok "PONG")) None None 5] connected_world
    = (Raise e,
       mkWorld (mkPod (Some (mkSocket 3)) ("127.0.0.1", 7779) 5 1 None)
               0 "" [3] []) /\
    is_connected_pod
      (pod (snd (serving (A:=Sgr.ansi) [mkTurn (Some (Ok "PONG")) None None 5]
                         connected_world))) = true.
Proof.
  apply (serving_malformed_reply_escapes (A:=Sgr.ansi)
           (mkTurn (Some (Ok "PONG")) None None 5) [] connected_world "PONG"
           eq_refl eq_refl eq_refl (or_introl eq_refl)).
Defined.

(** ** The heart, from its start *)

Section HeartRounds.

Import Beat.

Variable St : Type.
Variable callback : St -> St * option exn.

Hypothesis callback_returns : forall s, snd (callback s) = None.




End HeartRounds.



Section HeartCounts.

Import Beat.

Variable St : Type.
Variable callback : St -> St * option exn.
Variable pause : Z.
Variable s0 : St.

(** The shared state after [n] calls of the callback. *)
Let after (n : nat) : St := Nat.iter n (effect callback) s0.





End HeartCounts.


Section RedrawFacts.

Context {A : Ansi}.

(** X21.  A reply that can be read leaves the output alone exactly when
    it brings the ordinal of the state already known; in every other
    case, a first state or a changed one, it writes a carriage return and
    then the prompt of the new state, and nothing else. *)
Theorem reply_redraws_iff_state_changes
  (now : Z) (data token : string) (n : Z) (w : World) :
  Py.contains "PONG" data = true ->
  nth_error (Py.split ":" data) 1 = Some token ->
  Py.int_of_str token = Some n ->
  let w' := snd (handle_data now data w) in
  (trace w' = trace w <->
   exists known, state (pod w) = Some known /\ _state known = n) /\
  (trace w' <> trace w ->
   exists prompt,
     fst (make_prompt "> "
            (mkWorld (mkPod (sock (pod w)) (addr (pod w)) now
                            (recieved (pod w) + 1) (Some (mkPodState n)))
                     (PROMPT_TRACK w) (LAST_PROMPT w) (open_fds w)
                     (trace w ++ [Stdout (Py.chr 13)]))) = Ok prompt /\
     trace w' = (trace w ++ [Stdout (Py.chr 13); Stdout prompt])%list).
Proof.
  intros Hpong Htok Hint w'.
  pose proof (handle_data_pong_state now data token n w Hpong Htok Hint) as H.
  cbv zeta in H.
  assert (Hlonger : forall added : list event,
             added <> [] -> (trace w ++ added)%list <> trace w).
  { intros added Hne Heq. apply (f_equal (@List.length event)) in Heq.
    rewrite length_app in Heq. destruct added; [contradiction | cbn in Heq; lia]. }
  destruct (state (pod w)) as [known|] eqn:Hknown.
  - destruct (Z.eqb_spec n (_state known)) as [E|E]; cbn [negb] in H.
    + unfold w'. rewrite H. cbn [snd trace]. split.
      * split; [eauto | reflexivity].
      * intros Habs. now contradiction Habs.
    + destruct H as (prompt & track & Hp & H). unfold w'. rewrite H.
      cbn [snd trace]. split.
      * split.
        -- intros Habs. now apply Hlonger in Habs.
        -- intros (k & Hk & Hn). inversion Hk; subst. contradiction.
      * intros _. exists prompt. split; [exact Hp | reflexivity].
  - destruct H as (prompt & track & Hp & H). unfold w'. rewrite H.
    cbn [snd trace]. split.
    + split.
      * intros Habs. now apply Hlonger in Habs.
      * intros (k & Hk & _). discriminate Hk.
    + intros _. exists prompt. split; [exact Hp | reflexivity].
Qed.

End RedrawFacts.

Lemma reply_redraws_iff_state_changes_example :
  trace (snd (handle_data (A:=Sgr.ansi) 5 "PONG:6" armed_world))
  = trace armed_world.
Proof.
  destruct (reply_redraws_iff_state_changes (A:=Sgr.ansi) 5 "PONG:6" "6" 6
              armed_world eq_refl eq_refl eq_refl) as [[_ Hsame] _].
  apply Hsame. exists (mkPodState 6). split; reflexivity.
Defined.
